(** * A shallow embedding of the RAG chatbot service

    Sources embedded here:
    - [src/app/retriever.py]: [embed_texts], [build_index], [retrieve];
    - [src/app/rag_graph.py]: [compute_confidence], [rag];
    - [src/app/generator.py]: [generate_answer];
    - [src/app/ingest.py]: [load_txt], [load_documents];
    - [src/main.py]: the [/ask] handler [ask_question].

    Python floats are modelled as exact real numbers ([R]); the library
    routines the code calls (Python slicing, [str.strip], [round],
    sklearn's [cosine_similarity]) are written out below as they behave.
    numpy's [argsort] is unstable and its order among equal keys depends
    on the build: [retrieve_with] takes it as a parameter, constrained by
    [valid_argsort]; [retrieve] is the instance with the insertion-sort
    order [argsort].  Calls to the external providers (embedding model, chat model)
    are recorded in a trace, so that the absence of a call can be stated. *)

From Stdlib Require Import Bool List String Ascii ZArith Lia Reals Lra Sorted Permutation.
Import ListNotations.

(** ** Python scaffolding: exceptions, external calls, the effect monad *)

(** Exceptions raised along the pipeline, with their [str(e)]. *)
Inductive exn : Type :=
  | ValueError (msg : string)
  | IndexError (msg : string)
  | OSError (msg : string)
  | ProviderError (msg : string).

Definition exn_str (e : exn) : string :=
  match e with
  | ValueError m | IndexError m | OSError m | ProviderError m => m
  end.

Inductive outcome (A : Type) : Type :=
  | Ok (a : A)
  | Raise (e : exn).
Arguments Ok {A} a.
Arguments Raise {A} e.

(** Calls leaving the process: embedding requests and chat-model requests. *)
Inductive call : Type :=
  | CallEmbedQuery (text : string)
  | CallEmbedDocuments (texts : list string)
  | CallLLM (system human : string).

(** A computation threads the trace of external calls made so far. *)
Definition M (A : Type) : Type := list call -> outcome A * list call.

Definition ret {A} (a : A) : M A := fun tr => (Ok a, tr).
Definition throw {A} (e : exn) : M A := fun tr => (Raise e, tr).
Definition lift {A} (o : outcome A) : M A := fun tr => (o, tr).

Definition bind {A B} (m : M A) (f : A -> M B) : M B :=
  fun tr =>
    match m tr with
    | (Ok a, tr') => f a tr'
    | (Raise e, tr') => (Raise e, tr')
    end.

Notation "x <- m ;; k" := (bind m (fun x => k))
  (at level 61, m at next level, right associativity).

(** [try: body except Exception as e: handler(e)] *)
Definition try_except {A} (body : M A) (handler : exn -> M A) : M A :=
  fun tr =>
    match body tr with
    | (Ok a, tr') => (Ok a, tr')
    | (Raise e, tr') => handler e tr'
    end.

(** [[f(x) for x in xs]] where [f] may raise. *)
Fixpoint mapM {A B} (f : A -> M B) (xs : list A) : M (list B) :=
  match xs with
  | [] => ret []
  | x :: xs' => y <- f x ;; ys <- mapM f xs' ;; ret (y :: ys)
  end.

(** ** Python list operations *)

(** [l[i]] for a non-negative index [i]. *)
Definition py_getitem {A} (l : list A) (i : nat) : M A :=
  match nth_error l i with
  | Some a => ret a
  | None => throw (IndexError "list index out of range")
  end.

(** [l[start:]] with Python's clamping of the start index. *)
Definition py_slice_from {A} (start : Z) (l : list A) : list A :=
  let n := Z.of_nat (List.length l) in
  let s := if (start <? 0)%Z then Z.max 0 (start + n) else Z.min start n in
  skipn (Z.to_nat s) l.

(** ** [numpy.argsort] and the top-k selection of [retrieve] *)

Section Argsort.
Variable K : Type.
(** strict comparison of two keys ([<] on floats) *)
Variable ltb : K -> K -> bool.

(** Insert an (index, key) pair after every pair whose key is not
    greater: equal keys keep their index order. *)
Fixpoint insert_by (p : nat * K) (acc : list (nat * K)) : list (nat * K) :=
  match acc with
  | [] => [p]
  | q :: acc' => if ltb (snd p) (snd q) then p :: acc else q :: insert_by p acc'
  end.

(** One order [a.argsort()] can return: the indices of [a] in ascending
    order of the keys, equal keys in index order.  This is the order of
    the insertion sort that numpy's portable introsort runs on short
    arrays; other builds dispatch to vectorised sorts that order equal
    keys differently (see [valid_argsort]). *)
Definition argsort (a : list K) : list nat :=
  map fst (fold_left (fun acc p => insert_by p acc)
                     (combine (seq 0 (List.length a)) a) []).

(** [scores.argsort()[-k:][::-1]] *)
Definition top_idx (scores : list K) (k : Z) : list nat :=
  rev (py_slice_from (- k) (argsort scores)).
End Argsort.

Arguments insert_by {K} ltb p acc.
Arguments argsort {K} ltb a.
Arguments top_idx {K} ltb scores k.

Example argsort_nat : argsort Nat.ltb [3; 1; 2; 1] = [1; 3; 2; 0].
Proof. reflexivity. Qed.

Example top_idx_nat : top_idx Nat.ltb [3; 1; 2; 1] 2 = [0; 2].
Proof. reflexivity. Qed.

Example top_idx_nat_ties : top_idx Nat.ltb [5; 5] 2 = [1; 0].
Proof. reflexivity. Qed.

Example top_idx_nat_zero : top_idx Nat.ltb [3; 1; 2] 0 = [0; 2; 1].
Proof. reflexivity. Qed.

(** ** ["%d" % n] *)

Fixpoint string_of_nat_aux (fuel n : nat) (acc : string) : string :=
  match fuel with
  | O => acc
  | S fuel' =>
      let acc' := String (ascii_of_nat (48 + Nat.modulo n 10)) acc in
      if Nat.ltb n 10 then acc' else string_of_nat_aux fuel' (Nat.div n 10) acc'
  end.

Definition string_of_nat (n : nat) : string := string_of_nat_aux (S n) n EmptyString.

Example string_of_nat_example :
  string_of_nat 0 = "0"%string /\ string_of_nat 7 = "7"%string /\
  string_of_nat 1536 = "1536"%string.
Proof. repeat split; reflexivity. Qed.

(** ** sklearn's [cosine_similarity] on dense arrays *)

Local Open Scope R_scope.

(** [np.dot] of two rows. *)
Fixpoint dot (u v : list R) : R :=
  match u, v with
  | x :: u', y :: v' => x * y + dot u' v'
  | _, _ => 0
  end.

(** [row_norms(X)]: [sqrt(einsum("ij,ij->i", X, X))] *)
Definition row_norm (x : list R) : R := sqrt (dot x x).

(** [np.finfo(np.float64).eps] *)
Definition eps : R := / 2 ^ 52.

(** [_handle_zeros_in_scale]: a norm below [10 * eps] is replaced by 1. *)
Definition handle_zeros_in_scale (s : R) : R :=
  if Rlt_dec s (10 * eps) then 1 else s.

(** One row of [normalize(X)] (l2 norm). *)
Definition normalize_row (x : list R) : list R :=
  let s := handle_zeros_in_scale (row_norm x) in
  map (fun xi => xi / s) x.

(** [check_array]: a non-empty rectangular 2-D array with at least one
    feature; the number of features on success. *)
Definition check_array (X : list (list R)) : outcome nat :=
  match X with
  | [] => Raise (ValueError "Found array with 0 sample(s) while a minimum of 1 is required.")
  | r :: _ =>
      if forallb (fun r' => Nat.eqb (List.length r') (List.length r)) X then
        if Nat.eqb (List.length r) 0
        then Raise (ValueError "Found array with 0 feature(s) while a minimum of 1 is required.")
        else Ok (List.length r)
      else Raise (ValueError "setting an array element with a sequence.")
  end.

(** [cosine_similarity(X, Y)]: [check_pairwise_arrays], then
    [safe_sparse_dot(normalize(X), normalize(Y).T)]. *)
Definition cosine_similarity (X Y : list (list R)) : outcome (list (list R)) :=
  match check_array X, check_array Y with
  | Raise e, _ => Raise e
  | _, Raise e => Raise e
  | Ok dx, Ok dy =>
      if Nat.eqb dx dy then
        Ok (map (fun x => map (fun y => dot (normalize_row x) (normalize_row y)) Y) X)
      else Raise (ValueError ("Incompatible dimension for X and Y matrices: X.shape[1] == "
                              ++ string_of_nat dx ++ " while Y.shape[1] == "
                              ++ string_of_nat dy))
  end.

(** [<] on floats, as used by [argsort]. *)
Definition Rltb (x y : R) : bool := if Rlt_dec x y then true else false.

(** ** [app/rag_graph.py]: [compute_confidence] *)

(** [sum(xs)]: left to right from 0. *)
Definition py_sum (xs : list R) : R := fold_left Rplus xs 0.

(** Round half to even to an integer, as [round] does on the exact value. *)
Definition round_half_even (x : R) : Z :=
  let f := Int_part x in
  let d := x - IZR f in
  if Rlt_dec d (1 / 2) then f
  else if Rlt_dec (1 / 2) d then (f + 1)%Z
  else if Z.even f then f else (f + 1)%Z.

(** [round(x, 2)] *)
Definition py_round2 (x : R) : R := IZR (round_half_even (x * 100)) / 100.

Definition compute_confidence (sim_scores : list R) : R :=
  match sim_scores with
  | [] => 0
  | _ =>
      let avg_score := py_sum sim_scores / INR (List.length sim_scores) in
      let confidence := Rmax 0 (Rmin 1 avg_score) in
      py_round2 confidence
  end.

(** The Confidence Estimator as the spec words it (section 4.3): the
    arithmetic mean, clamped to [0, 1], rounded to 2 decimal places; 0 on
    empty input.  Compared with [compute_confidence] below. *)
Definition spec_mean (xs : list R) : R := fold_right Rplus 0 xs / INR (List.length xs).

Definition spec_clamp01 (x : R) : R :=
  if Rlt_dec x 0 then 0 else if Rlt_dec 1 x then 1 else x.

Definition spec_confidence (xs : list R) : R :=
  match xs with
  | [] => 0
  | _ => py_round2 (spec_clamp01 (spec_mean xs))
  end.

Local Close Scope R_scope.

(** ** External providers *)

(** What the embedding model and the chat model answer to a request; a
    failing request (network, missing key, malformed reply) raises. *)
Record Providers : Type := {
  embed_query_api : string -> outcome (list R);
  embed_documents_api : list string -> outcome (list (list R));
  llm_api : string -> string -> outcome string
}.

(** [get_embeddings_model().embed_query(text)] *)
Definition embed_query (P : Providers) (text : string) : M (list R) :=
  fun tr => (embed_query_api P text, tr ++ [CallEmbedQuery text]).

(** [embed_texts(texts)] *)
Definition embed_texts (P : Providers) (texts : list string) : M (list (list R)) :=
  fun tr => (embed_documents_api P texts, tr ++ [CallEmbedDocuments texts]).

(** ** [app/retriever.py]: [retrieve] *)

(** What every build's [a.argsort()] (default [kind='quicksort'], not
    stable) returns: a permutation of the indices of [a] along which the
    keys do not decrease.  The order among equal keys is left open. *)
Definition valid_argsort (np_argsort : list R -> list nat) : Prop :=
  forall a : list R,
    Permutation (np_argsort a) (seq 0 (List.length a)) /\
    Sorted (fun i j => (nth i a 0 <= nth j a 0)%R) (np_argsort a).

(** Another valid order: equal keys in decreasing index order (the order
    of [[1, 1, 0, 0].argsort() = [3, 2, 1, 0]] on vectorised builds). *)
Definition argsort_ties_reversed (a : list R) : list nat :=
  rev (argsort (fun x y => Rltb y x) a).

(** [retrieve(query, documents, doc_embeddings, k)] for a given
    [argsort].  [doc_embeddings] is [None] when the corpus was never
    embedded: [cosine_similarity(X, None)] compares [X] with itself. *)
Definition retrieve_with (np_argsort : list R -> list nat) (P : Providers) (query : string)
    (documents : list string) (doc_embeddings : option (list (list R))) (k : Z)
    : M (list string * list R) :=
  query_vector <- embed_query P query ;;
  sims <- lift (match doc_embeddings with
                | Some E => cosine_similarity [query_vector] E
                | None => cosine_similarity [query_vector] [query_vector]
                end) ;;
  let scores := hd [] sims in
  let top := rev (py_slice_from (- k) (np_argsort scores)) in
  top_docs <- mapM (py_getitem documents) top ;;
  ret (top_docs, map (fun i => nth i scores 0%R) top).

(** [retrieve] with the insertion-sort order of equal keys. *)
Definition retrieve (P : Providers) (query : string) (documents : list string)
    (doc_embeddings : option (list (list R))) (k : Z) : M (list string * list R) :=
  retrieve_with (argsort Rltb) P query documents doc_embeddings k.

(** ** [app/generator.py]: [generate_answer] *)

Definition nl : string := String (ascii_of_nat 10) EmptyString.

Definition system_prompt : string := "You are a helpful assistant.".

Definition answer_prompt (question context : string) : string :=
  (nl ++ "Answer using ONLY the context below." ++ nl ++ nl ++
   "Context:" ++ nl ++ context ++ nl ++ nl ++
   "Question:" ++ nl ++ question ++ nl)%string.

Definition generate_answer (P : Providers) (question context : string) : M string :=
  let prompt := answer_prompt question context in
  fun tr => (llm_api P system_prompt prompt, tr ++ [CallLLM system_prompt prompt]).

(** ** [app/rag_graph.py]: [rag] *)

Definition rag (P : Providers) (question : string) (documents : list string)
    (doc_embeddings : option (list (list R))) (k : Z) : M (string * list string * R) :=
  r <- retrieve P question documents doc_embeddings k ;;
  let '(retrieved_docs, sim_scores) := r in
  let context := String.concat nl retrieved_docs in
  answer <- generate_answer P question context ;;
  let confidence := compute_confidence sim_scores in
  ret (answer, retrieved_docs, confidence).

(** ** Python string operations *)

(** [str.isspace] on one character, for code points up to 255. *)
Definition is_space (c : ascii) : bool :=
  let n := nat_of_ascii c in
  ((9 <=? n) && (n <=? 13)) || ((28 <=? n) && (n <=? 32)) || (n =? 133) || (n =? 160).

Fixpoint lstrip_list (l : list ascii) : list ascii :=
  match l with
  | c :: l' => if is_space c then lstrip_list l' else l
  | [] => []
  end.

(** [s.strip()] *)
Definition py_strip (s : string) : string :=
  string_of_list_ascii (rev (lstrip_list (rev (lstrip_list (list_ascii_of_string s))))).

(** [s.endswith(suffix)] *)
Definition py_endswith (s suffix : string) : bool :=
  let ls := list_ascii_of_string s in
  let lf := list_ascii_of_string suffix in
  (List.length lf <=? List.length ls) &&
  String.eqb (string_of_list_ascii (skipn (List.length ls - List.length lf) ls)) suffix.

(** ** [app/ingest.py]: [load_txt], [load_documents]; [build_index] *)

(** The text of a file opened in text mode, or the error [open] raises. *)
Definition FileSystem : Type := string -> outcome string.

(** Iterating a text file: universal newlines end a line at ["\n"], ["\r"]
    or ["\r\n"].  The pieces here drop the line ending, which [strip]
    removes anyway; the empty piece between ["\r"] and ["\n"] is blank and
    filtered out like any blank line. *)
Definition is_line_end (c : ascii) : bool :=
  (nat_of_ascii c =? 10) || (nat_of_ascii c =? 13).

Fixpoint split_lines_aux (l : list ascii) (cur : list ascii) : list string :=
  match l with
  | [] => [string_of_list_ascii (rev cur)]
  | c :: l' =>
      if is_line_end c then string_of_list_ascii (rev cur) :: split_lines_aux l' []
      else split_lines_aux l' (c :: cur)
  end.

Definition split_lines (s : string) : list string :=
  split_lines_aux (list_ascii_of_string s) [].

(** [[line.strip() for line in f if line.strip()]] *)
Definition load_txt (fs : FileSystem) (path : string) : M (list string) :=
  contents <- lift (fs path) ;;
  ret (filter (fun s => negb (String.eqb s EmptyString)) (map py_strip (split_lines contents))).

Definition load_documents (fs : FileSystem) (path : string) : M (list string) :=
  if py_endswith path ".txt" then load_txt fs path
  else throw (ValueError ("Unsupported file format: " ++ path)%string).

Definition build_index (fs : FileSystem) (P : Providers) (path : string)
    : M (list string * list (list R)) :=
  documents <- load_documents fs path ;;
  doc_embeddings <- embed_texts P documents ;;
  ret (documents, doc_embeddings).

(** ** [main.py]: the [/ask] handler *)

(** The module globals [DOCUMENTS] and [DOC_EMBEDDINGS] ([None] until set). *)
Record AppState : Type := {
  DOCUMENTS : option (list string);
  DOC_EMBEDDINGS : option (list (list R))
}.

Record QuestionRequest : Type := {
  question : string;
  k : Z
}.

Record QuestionResponse : Type := {
  resp_question : string;
  resp_k : Z;
  answer : string;
  contexts : list string;
  confidence : R
}.

Definition response (payload : QuestionRequest) (ans : string) (ctxs : list string)
    (conf : R) : QuestionResponse :=
  {| resp_question := question payload; resp_k := k payload;
     answer := ans; contexts := ctxs; confidence := conf |}.

Definition docs_not_loaded_msg : string :=
  "Error: Documents not loaded. Check your .env file and ensure OPENAI_API_KEY is set.".

Definition invalid_question_msg : string := "Please provide a valid question.".

Definition error_prefix : string := "Error processing question: ".

(** [not payload.question or not payload.question.strip()] *)
Definition question_blank (q : string) : bool :=
  String.eqb q EmptyString || String.eqb (py_strip q) EmptyString.

Definition ask_question (st : AppState) (P : Providers) (payload : QuestionRequest)
    : M QuestionResponse :=
  match DOCUMENTS st with
  | None | Some [] => ret (response payload docs_not_loaded_msg [] 0%R)
  | Some docs =>
      if question_blank (question payload) then
        ret (response payload invalid_question_msg [] 0%R)
      else
        try_except
          (r <- rag P (question payload) docs (DOC_EMBEDDINGS st) (k payload) ;;
           let '(ans, ctxs, conf) := r in
           ret (response payload ans ctxs conf))
          (fun e => ret (response payload (error_prefix ++ exn_str e)%string [] 0%R))
  end.

Example strip_example : py_strip "  a b	 " = "a b"%string.
Proof. reflexivity. Qed.

Example endswith_example : py_endswith "data/doc.pdf" ".txt" = false /\ py_endswith "input.txt" ".txt" = true.
Proof. split; reflexivity. Qed.

Example load_txt_example :
  fst (load_txt (fun _ => Ok ("a" ++ String (ascii_of_nat 13) (String (ascii_of_nat 10) "  b  ") ++ nl ++ " ")%string) "x.txt" [])
  = Ok ["a"; "b"]%string.
Proof. reflexivity. Qed.

(** ** [app/ingest.py]: [load_pdf] *)

(** [PyPDFLoader(path).load()]: one document per page, as the page texts,
    or the error the loader raises. *)
Definition PdfLoader : Type := string -> outcome (list string).

(** [[doc.page_content for doc in loader.load()]] *)
Definition load_pdf (pdf : PdfLoader) (path : string) : M (list string) :=
  lift (pdf path).

(** ** [main.py]: [startup_event], [health_check], [get_stats] *)

(** The globals before [startup_event] has run. *)
Definition initial_state : AppState := {| DOCUMENTS := None; DOC_EMBEDDINGS := None |}.

(** [DOCUMENTS] is assigned before [embed_texts] runs; any exception
    resets it to [[]] and [DOC_EMBEDDINGS] to [None]. *)
Definition startup_event (fs : FileSystem) (pdf : PdfLoader) (P : Providers) : M AppState :=
  try_except
    (docs_txt <- load_txt fs "data/input.txt" ;;
     docs_pdf <- load_pdf pdf "data/doc.pdf" ;;
     let documents := docs_txt ++ docs_pdf in
     doc_embeddings <- embed_texts P documents ;;
     ret {| DOCUMENTS := Some documents; DOC_EMBEDDINGS := Some doc_embeddings |})
    (fun _ => ret {| DOCUMENTS := Some []; DOC_EMBEDDINGS := None |}).

(** The state [startup_event]'s handler leaves. *)
Definition failed_state : AppState := {| DOCUMENTS := Some []; DOC_EMBEDDINGS := None |}.

Record HealthResponse : Type := {
  status : string;
  documents_loaded : nat;
  embeddings_ready : bool;
  message : string
}.

(** Python truthiness of [DOCUMENTS]. *)
Definition documents_truthy (d : option (list string)) : bool :=
  match d with
  | None | Some [] => false
  | Some _ => true
  end.

Definition health_check (st : AppState) : HealthResponse :=
  {| status := if documents_truthy (DOCUMENTS st) then "healthy" else "documents_not_loaded";
     documents_loaded :=
       match DOCUMENTS st with
       | Some (_ :: _ as d) => List.length d
       | _ => 0
       end;
     embeddings_ready := match DOC_EMBEDDINGS st with Some _ => true | None => false end;
     message :=
       if documents_truthy (DOCUMENTS st) then "Ready"
       else "Set OPENAI_API_KEY environment variable to enable document loading" |}.

Record StatsResponse : Type := {
  total_documents : nat;
  embedding_dimension : nat;
  total_embeddings : nat
}.

(** [DOC_EMBEDDINGS] is the array [np.array(vectors)] built by
    [embed_texts]: with no vector it is the 1-D array of shape [(0,)], whose
    [shape[1]] raises; otherwise its rows all have the length of the
    first ([np.array] refuses ragged rows). *)
Definition get_stats (st : AppState) : outcome StatsResponse :=
  let total_documents :=
    match DOCUMENTS st with
    | Some (_ :: _ as d) => List.length d
    | _ => 0
    end in
  match DOC_EMBEDDINGS st with
  | None => Ok {| total_documents := total_documents; embedding_dimension := 0;
                  total_embeddings := 0 |}
  | Some [] => Raise (IndexError "tuple index out of range")
  | Some ((r :: _) as E) =>
      Ok {| total_documents := total_documents; embedding_dimension := List.length r;
            total_embeddings := List.length E |}
  end.

(** ** [app/ingest.py]: [ingest_to_milvus] *)

Inductive ingest_error : Type :=
  | IngestRaised (e : exn)
  | AttributeError (msg : string).

(** [RecursiveCharacterTextSplitter.split_documents(docs)] reads
    [doc.page_content] of every element; the elements here are [str]. *)
Definition split_documents (docs : list string) : ingest_error + list string :=
  match docs with
  | [] => inr []
  | _ :: _ => inl (AttributeError "'str' object has no attribute 'page_content'")
  end.

(** [from_documents] stands for building the embeddings client and
    [Milvus.from_documents] on the chunks. *)
Definition ingest_to_milvus {VS : Type} (fs : FileSystem) (pdf : PdfLoader)
    (from_documents : list string -> ingest_error + VS) : ingest_error + VS :=
  match fst (load_txt fs "data\input.txt" []) with
  | Raise e => inl (IngestRaised e)
  | Ok docs_txt =>
      match pdf "data\doc.pdf"%string with
      | Raise e => inl (IngestRaised e)
      | Ok docs_pdf =>
          match split_documents (docs_txt ++ docs_pdf) with
          | inl err => inl err
          | inr chunks => from_documents chunks
          end
      end
  end.

(** ** Concrete providers used by the witnesses *)

Definition providers_ok : Providers := {|
  embed_query_api := fun _ => Ok [1%R];
  embed_documents_api := fun ts => Ok (map (fun _ => [1%R]) ts);
  llm_api := fun _ _ => Ok "an answer"%string
|}.

Definition providers_down : Providers := {|
  embed_query_api := fun _ => Raise (ProviderError "Connection error.");
  embed_documents_api := fun _ => Raise (ProviderError "Connection error.");
  llm_api := fun _ _ => Raise (ProviderError "Connection error.")
|}.

Definition state_loaded : AppState := {|
  DOCUMENTS := Some ["cats are mammals"; "the stock market fell today"]%string;
  DOC_EMBEDDINGS := Some [[1%R]; [1%R]]
|}.

Definition missing_input_error : exn :=
  OSError "[Errno 2] No such file or directory: 'data/input.txt'".

Definition fs_missing : FileSystem := fun _ => Raise missing_input_error.

Definition pdf_empty : PdfLoader := fun _ => Ok [].

(** * Properties *)

(** ** Strings *)

Lemma lstrip_list_all_space (l : list ascii) :
  forallb is_space l = true -> lstrip_list l = [].
Proof.
  induction l as [|c l IH]; simpl; [reflexivity|].
  intros H. apply andb_prop in H as [Hc Hl]. rewrite Hc. exact (IH Hl).
Qed.

Lemma py_strip_all_space (s : string) :
  forallb is_space (list_ascii_of_string s) = true -> py_strip s = EmptyString.
Proof.
  intros H. unfold py_strip. rewrite (lstrip_list_all_space _ H). reflexivity.
Qed.

Lemma py_endswith_pdf_not_txt (path : string) :
  py_endswith path ".pdf" = true -> py_endswith path ".txt" = false.
Proof.
  unfold py_endswith.
  change (List.length (list_ascii_of_string ".pdf")) with 4.
  change (List.length (list_ascii_of_string ".txt")) with 4.
  destruct (4 <=? List.length (list_ascii_of_string path)); [|discriminate].
  cbn [andb]. intros H. apply String.eqb_eq in H. rewrite H. reflexivity.
Qed.

(** ** C9: the loader dispatch *)

(** C9. [load_documents] raises [ValueError("Unsupported file format: ...")]
    on every path that does not end in [".txt"], without reading the file;
    [build_index] then raises the same error before any embedding call.
    Every path ending in [".pdf"] is such a path. *)
Theorem load_documents_rejects_non_txt (fs : FileSystem) (P : Providers)
    (path : string) (tr : list call)
    (Hext : py_endswith path ".txt" = false) :
  load_documents fs path tr
    = (Raise (ValueError ("Unsupported file format: " ++ path)%string), tr) /\
  build_index fs P path tr
    = (Raise (ValueError ("Unsupported file format: " ++ path)%string), tr) /\
  (forall p, py_endswith p ".pdf" = true -> py_endswith p ".txt" = false).
Proof.
  assert (Hl : load_documents fs path tr
               = (Raise (ValueError ("Unsupported file format: " ++ path)%string), tr)).
  { unfold load_documents. rewrite Hext. reflexivity. }
  split; [exact Hl|]. split.
  - unfold build_index, bind. rewrite Hl. reflexivity.
  - exact py_endswith_pdf_not_txt.
Qed.

Lemma load_documents_rejects_non_txt_witness :
  py_endswith "data/doc.pdf" ".txt" = false /\
  load_documents (fun _ => Ok EmptyString) "data/doc.pdf" []
    = (Raise (ValueError ("Unsupported file format: " ++ "data/doc.pdf")%string), []) /\
  build_index (fun _ => Ok EmptyString) providers_ok "data/doc.pdf" []
    = (Raise (ValueError ("Unsupported file format: " ++ "data/doc.pdf")%string), []) /\
  (forall p, py_endswith p ".pdf" = true -> py_endswith p ".txt" = false).
Proof.
  split; [reflexivity|].
  apply (load_documents_rejects_non_txt (fun _ => Ok EmptyString) providers_ok
           "data/doc.pdf" []).
  reflexivity.
Defined.

(** ** C6: blank questions *)

(** C6. A question that is empty or made only of whitespace gets a response
    with confidence 0 and no contexts, and the trace of external calls is
    left unchanged.  The answer is the invalid-question message when the
    documents are loaded (the documents-not-loaded message otherwise). *)
Theorem ask_question_blank (st : AppState) (P : Providers)
    (payload : QuestionRequest) (tr : list call)
    (Hblank : forallb is_space (list_ascii_of_string (question payload)) = true) :
  ask_question st P payload tr
    = (Ok (response payload
             (match DOCUMENTS st with
              | None | Some [] => docs_not_loaded_msg
              | Some _ => invalid_question_msg
              end) [] 0%R), tr).
Proof.
  unfold ask_question.
  assert (Hq : question_blank (question payload) = true).
  { unfold question_blank. rewrite (py_strip_all_space _ Hblank).
    apply orb_true_r. }
  destruct (DOCUMENTS st) as [[|d ds]|]; try reflexivity.
  rewrite Hq. reflexivity.
Qed.

Lemma ask_question_blank_witness :
  forallb is_space (list_ascii_of_string "  ") = true /\
  ask_question state_loaded providers_ok {| question := "  "; k := 2 |} []
    = (Ok (response {| question := "  "; k := 2 |} invalid_question_msg [] 0%R), []).
Proof.
  split; [reflexivity|].
  exact (ask_question_blank state_loaded providers_ok {| question := "  "; k := 2 |} []
           eq_refl).
Defined.

(** ** C7: pipeline failures at the request boundary *)

Lemma ask_question_never_raises (st : AppState) (P : Providers)
    (payload : QuestionRequest) (tr : list call) :
  exists resp tr', ask_question st P payload tr = (Ok resp, tr').
Proof.
  unfold ask_question.
  destruct (DOCUMENTS st) as [[|d ds]|]; try (do 2 eexists; reflexivity).
  destruct (question_blank (question payload)); [do 2 eexists; reflexivity|].
  unfold try_except, bind.
  destruct (rag P _ _ _ _ tr) as [[[[ans ctxs] conf]|e] tr'];
    do 2 eexists; reflexivity.
Qed.

(** C7. When the documents are loaded and the question is not blank, a
    failure raised anywhere in [rag] (embedding, similarity, indexing,
    generation) is turned into a response whose answer is
    ["Error processing question: "] followed by the exception's message,
    with no contexts and confidence 0; and no call of the handler ever
    raises. *)
Theorem ask_question_catches_failures (st : AppState) (P : Providers)
    (payload : QuestionRequest) (tr : list call)
    (docs : list string) (e : exn) (tr1 : list call)
    (Hdocs : DOCUMENTS st = Some docs) (Hne : docs <> [])
    (Hq : question_blank (question payload) = false)
    (Hfail : rag P (question payload) docs (DOC_EMBEDDINGS st) (k payload) tr
             = (Raise e, tr1)) :
  ask_question st P payload tr
    = (Ok (response payload (error_prefix ++ exn_str e)%string [] 0%R), tr1) /\
  (forall st' P' payload' tr',
     exists resp tr'', ask_question st' P' payload' tr' = (Ok resp, tr'')).
Proof.
  split; [|exact ask_question_never_raises].
  unfold ask_question. rewrite Hdocs.
  destruct docs as [|d ds]; [congruence|].
  rewrite Hq. unfold try_except, bind. rewrite Hfail. reflexivity.
Qed.

Lemma ask_question_catches_failures_witness :
  rag providers_down "What are cats?"%string ["cats are mammals"; "the stock market fell today"]%string
      (Some [[1%R]; [1%R]]) 2 []
    = (Raise (ProviderError "Connection error."%string), [CallEmbedQuery "What are cats?"%string]) /\
  ask_question state_loaded providers_down {| question := "What are cats?"%string; k := 2 |} []
    = (Ok (response {| question := "What are cats?"%string; k := 2 |}
             (error_prefix ++ "Connection error."%string)%string [] 0%R),
       [CallEmbedQuery "What are cats?"%string]).
Proof.
  split; [reflexivity|].
  refine (proj1 (ask_question_catches_failures state_loaded providers_down
                   {| question := "What are cats?"%string; k := 2 |} []
                   ["cats are mammals"; "the stock market fell today"]%string
                   (ProviderError "Connection error."%string) [CallEmbedQuery "What are cats?"%string]
                   eq_refl _ eq_refl eq_refl)).
  discriminate.
Defined.

(** ** The top-k selection *)

Section ArgsortProps.
Variable K : Type.
Variable ltb : K -> K -> bool.
Hypothesis ltb_asym : forall x y, ltb x y = true -> ltb y x = false.

Let step := fun acc p => @insert_by K ltb p acc.

Definition sorted_pairs (a : list K) : list (nat * K) :=
  fold_left step (combine (seq 0 (List.length a)) a) [].

(** [p] may precede [q] in ascending order: [q]'s key is not smaller,
    and on equal keys the smaller index comes first. *)
Definition asc (p q : nat * K) : Prop :=
  ltb (snd q) (snd p) = false /\ (ltb (snd p) (snd q) = false -> (fst p < fst q)%nat).

Lemma insert_by_In p acc x : In x (insert_by ltb p acc) <-> p = x \/ In x acc.
Proof.
  induction acc as [|q acc IH]; simpl; [tauto|].
  destruct (ltb (snd p) (snd q)); simpl; [tauto|]. rewrite IH. tauto.
Qed.

Lemma insert_by_length p acc : List.length (insert_by ltb p acc) = S (List.length acc).
Proof.
  induction acc as [|q acc IH]; simpl; [reflexivity|].
  destruct (ltb (snd p) (snd q)); simpl; [reflexivity|]. now rewrite IH.
Qed.

Lemma insert_by_HdRel r p acc :
  HdRel asc r acc -> asc r p -> HdRel asc r (insert_by ltb p acc).
Proof.
  intros Hhd Hrp. destruct acc as [|q acc]; simpl; [now constructor|].
  destruct (ltb (snd p) (snd q)); constructor; [assumption|].
  now inversion Hhd.
Qed.

Lemma insert_by_sorted p acc :
  Sorted asc acc -> (forall q, In q acc -> (fst q < fst p)%nat) ->
  Sorted asc (insert_by ltb p acc).
Proof.
  induction acc as [|q acc IH]; intros Hs Hlt; simpl; [now repeat constructor|].
  destruct (ltb (snd p) (snd q)) eqn:Hpq.
  - constructor; [assumption|]. constructor. split.
    + now apply ltb_asym.
    + congruence.
  - apply Sorted_inv in Hs as [Hs Hhd]. constructor.
    + apply IH; [assumption|]. intros q' Hq'. apply Hlt. now right.
    + apply insert_by_HdRel; [assumption|]. split; [assumption|].
      intros _. apply Hlt. now left.
Qed.

Lemma fold_insert_props (a : list K) (start : nat) (acc : list (nat * K)) :
  Sorted asc acc -> (forall q, In q acc -> (fst q < start)%nat) ->
  Sorted asc (fold_left step (combine (seq start (List.length a)) a) acc) /\
  (forall x, In x (fold_left step (combine (seq start (List.length a)) a) acc) <->
             In x acc \/ In x (combine (seq start (List.length a)) a)) /\
  List.length (fold_left step (combine (seq start (List.length a)) a) acc)
    = (List.length acc + List.length a)%nat.
Proof.
  revert start acc.
  induction a as [|y a IH]; intros start acc Hs Hlt; simpl.
  - split; [assumption|]. split; [tauto|lia].
  - destruct (IH (S start) (insert_by ltb (start, y) acc)) as [H1 [H2 H3]].
    + apply insert_by_sorted; assumption.
    + intros q Hq. apply insert_by_In in Hq as [<-|Hq]; simpl; [lia|].
      specialize (Hlt q Hq). lia.
    + split; [exact H1|]. split.
      * intros x. unfold step in H2 |- *. rewrite H2, insert_by_In. simpl. tauto.
      * unfold step in H3 |- *. rewrite H3, insert_by_length. simpl. lia.
Qed.

Lemma In_combine_seq (a : list K) (start i : nat) (s d : K) :
  In (i, s) (combine (seq start (List.length a)) a) ->
  (start <= i < start + List.length a)%nat /\ nth (i - start) a d = s.
Proof.
  revert start. induction a as [|y a IH]; intros start; simpl; [tauto|].
  intros [Heq|Hin].
  - inversion Heq; subst. rewrite Nat.sub_diag. split; [lia|reflexivity].
  - destruct (IH (S start) Hin) as [Hr Hn]. split; [lia|].
    replace (i - start)%nat with (S (i - S start)) by lia. exact Hn.
Qed.

Lemma sorted_pairs_props (a : list K) (d : K) :
  Sorted asc (sorted_pairs a) /\
  (forall i s, In (i, s) (sorted_pairs a) -> (i < List.length a)%nat /\ nth i a d = s) /\
  List.length (sorted_pairs a) = List.length a.
Proof.
  destruct (fold_insert_props a 0 [] (Sorted_nil _) (fun q H => False_ind _ H))
    as [H1 [H2 H3]].
  split; [exact H1|]. split; [|exact H3].
  intros i s Hin. apply H2 in Hin as [[]|Hin].
  apply (In_combine_seq _ _ _ _ d) in Hin as [Hr Hn].
  rewrite Nat.sub_0_r in Hn. split; [lia|exact Hn].
Qed.

Lemma argsort_sorted_pairs (a : list K) : argsort ltb a = map fst (sorted_pairs a).
Proof. reflexivity. Qed.
End ArgsortProps.

Arguments sorted_pairs {K} ltb a.
Arguments asc {K} ltb p q.

Lemma Sorted_skipn {A} (R : A -> A -> Prop) (n : nat) (l : list A) :
  Sorted R l -> Sorted R (skipn n l).
Proof.
  revert l. induction n as [|n IH]; intros l Hs; [exact Hs|].
  destruct l as [|x l]; [constructor|]. simpl. apply IH.
  now apply Sorted_inv in Hs.
Qed.

Lemma In_skipn {A} (n : nat) (l : list A) (x : A) : In x (skipn n l) -> In x l.
Proof. intros H. rewrite <- (firstn_skipn n l). apply in_or_app. now right. Qed.

Lemma Sorted_snoc {A} (R : A -> A -> Prop) (l : list A) (b a : A) :
  Sorted R (l ++ [b]) -> R b a -> Sorted R (l ++ [b; a]).
Proof.
  induction l as [|x l IH]; simpl; intros Hs Hba.
  - constructor; [now repeat constructor|]. now constructor.
  - apply Sorted_inv in Hs as [Hs Hhd]. constructor; [now apply IH|].
    destruct l as [|y l]; simpl in *; inversion Hhd; now constructor.
Qed.

Lemma Sorted_rev_flip {A} (R : A -> A -> Prop) (l : list A) :
  Sorted R l -> Sorted (fun x y => R y x) (rev l).
Proof.
  induction 1 as [|a l Hs IH Hhd]; simpl; [constructor|].
  destruct l as [|b l]; simpl; [now repeat constructor|].
  simpl in IH. inversion Hhd; subst.
  change (rev l ++ [b] ++ [a]) with (rev l ++ [b; a]).
  rewrite <- app_assoc. now apply Sorted_snoc.
Qed.

Lemma py_slice_from_map {A B} (f : A -> B) (s : Z) (l : list A) :
  py_slice_from s (map f l) = map f (py_slice_from s l).
Proof. unfold py_slice_from. now rewrite length_map, skipn_map. Qed.

Lemma py_slice_from_length_neg {A} (k : Z) (l : list A) :
  (1 <= k)%Z ->
  Z.of_nat (List.length (py_slice_from (- k) l)) = Z.min k (Z.of_nat (List.length l)).
Proof.
  intros Hk. unfold py_slice_from.
  replace (- k <? 0)%Z with true by (symmetry; apply Z.ltb_lt; lia).
  rewrite length_skipn. lia.
Qed.

Section TopIdxProps.
Variable K : Type.
Variable ltb : K -> K -> bool.
Hypothesis ltb_asym : forall x y, ltb x y = true -> ltb y x = false.

Lemma top_idx_pairs (a : list K) (k : Z) (d : K) :
  map (fun i => (i, nth i a d)) (top_idx ltb a k)
    = rev (py_slice_from (- k) (sorted_pairs ltb a)).
Proof.
  unfold top_idx. rewrite argsort_sorted_pairs, py_slice_from_map, map_rev, map_map.
  f_equal. rewrite <- (map_id (py_slice_from (- k) (sorted_pairs ltb a))) at 2.
  apply map_ext_in. intros [i s] Hin.
  unfold py_slice_from in Hin. apply In_skipn in Hin.
  destruct (sorted_pairs_props K ltb ltb_asym a d) as [_ [Hp _]].
  destruct (Hp i s Hin) as [_ Hn]. simpl. now rewrite Hn.
Qed.

(** Descending order of the (index, score) pairs: the score does not
    grow, and on equal scores the larger index comes first (with the
    insertion-sort order [argsort]). *)
Lemma top_idx_sorted (a : list K) (k : Z) (d : K) :
  Sorted (fun p q => asc ltb q p) (map (fun i => (i, nth i a d)) (top_idx ltb a k)).
Proof.
  rewrite top_idx_pairs. apply Sorted_rev_flip. unfold py_slice_from.
  apply Sorted_skipn. apply (sorted_pairs_props K ltb ltb_asym a d).
Qed.

Lemma top_idx_bound (a : list K) (k : Z) (i : nat) :
  In i (top_idx ltb a k) -> (i < List.length a)%nat.
Proof.
  destruct a as [|d a'].
  { unfold top_idx, argsort, py_slice_from. simpl. rewrite skipn_nil. simpl. tauto. }
  intros Hin. apply (in_map (fun i => (i, nth i (d :: a') d))) in Hin.
  rewrite top_idx_pairs in Hin. apply in_rev in Hin.
  unfold py_slice_from in Hin. apply In_skipn in Hin.
  destruct (sorted_pairs_props K ltb ltb_asym (d :: a') d) as [_ [Hp _]].
  now apply Hp in Hin as [? _].
Qed.

Lemma top_idx_length (a : list K) (k : Z) :
  (1 <= k)%Z ->
  Z.of_nat (List.length (top_idx ltb a k)) = Z.min k (Z.of_nat (List.length a)).
Proof.
  intros Hk. unfold top_idx. rewrite length_rev, py_slice_from_length_neg by exact Hk.
  rewrite argsort_sorted_pairs, length_map.
  destruct a as [|d a']; [reflexivity|].
  now rewrite (proj2 (proj2 (sorted_pairs_props K ltb ltb_asym (d :: a') d))).
Qed.
End TopIdxProps.

(** ** [retrieve] *)

Lemma Rltb_false (x y : R) : Rltb x y = false <-> (y <= x)%R.
Proof.
  unfold Rltb. destruct (Rlt_dec x y) as [H|H]; split; intros; try lra; congruence.
Qed.

Lemma Rltb_asym (x y : R) : Rltb x y = true -> Rltb y x = false.
Proof.
  unfold Rltb. destruct (Rlt_dec x y); [|discriminate]. intros _.
  apply Rltb_false. lra.
Qed.

Lemma Rltb_irrefl (x : R) : Rltb x x = false.
Proof. apply Rltb_false. lra. Qed.

Lemma Sorted_weaken {A} (R1 R2 : A -> A -> Prop) (l : list A) :
  (forall x y, R1 x y -> R2 x y) -> Sorted R1 l -> Sorted R2 l.
Proof.
  intros Himp. induction 1 as [|a l Hs IH Hhd]; constructor; [assumption|].
  destruct Hhd; constructor. now apply Himp.
Qed.

Lemma combine_map_self {A B} (f : A -> B) (l : list A) :
  combine l (map f l) = map (fun x => (x, f x)) l.
Proof. induction l as [|x l IH]; simpl; [reflexivity|]. now rewrite IH. Qed.

Lemma mapM_trace {A B} (f : A -> M B) (xs : list A) (tr : list call) :
  (forall x tr0, f x tr0 = (fst (f x []), tr0)) ->
  mapM f xs tr = (fst (mapM f xs []), tr).
Proof.
  intros Hf. revert tr. induction xs as [|x xs IH]; intros tr; [reflexivity|].
  simpl. unfold bind. rewrite (Hf x tr), (Hf x []).
  destruct (fst (f x [])) as [y|e]; [|reflexivity].
  rewrite (IH tr), (IH []). destruct (fst (mapM f xs [])); reflexivity.
Qed.

Lemma mapM_getitem_trace {A} (l : list A) (idx : list nat) (tr : list call) :
  mapM (py_getitem l) idx tr = (fst (mapM (py_getitem l) idx []), tr).
Proof.
  apply mapM_trace. intros i tr0. unfold py_getitem.
  destruct (nth_error l i); reflexivity.
Qed.

Lemma py_getitem_eq {A} (l : list A) (i : nat) (tr : list call) :
  py_getitem l i tr
    = (match nth_error l i with
       | Some a => Ok a
       | None => Raise (IndexError "list index out of range")
       end, tr).
Proof. unfold py_getitem. destruct (nth_error l i); reflexivity. Qed.

Lemma mapM_getitem_ok {A} (l : list A) (idx : list nat) (tr : list call) (ys : list A) :
  fst (mapM (py_getitem l) idx tr) = Ok ys ->
  Forall2 (fun i y => nth_error l i = Some y) idx ys.
Proof.
  revert tr ys. induction idx as [|i idx IH]; intros tr ys; simpl.
  - intros H. inversion H. constructor.
  - unfold bind. rewrite py_getitem_eq.
    destruct (nth_error l i) as [a|] eqn:Ha; [|discriminate].
    rewrite mapM_getitem_trace.
    destruct (fst (mapM (py_getitem l) idx [])) as [ys'|] eqn:Hys; simpl; [|discriminate].
    intros H. inversion H; subst. constructor; [assumption|]. now apply (IH []).
Qed.

(** [retrieve] makes exactly one external call, the query embedding; its
    result depends on the answer to that call and on its arguments only. *)
Lemma retrieve_with_spec (np_argsort : list R -> list nat) (P : Providers) (query : string)
    (documents : list string) (doc_embeddings : option (list (list R))) (k : Z)
    (tr : list call) :
  retrieve_with np_argsort P query documents doc_embeddings k tr =
  (match embed_query_api P query with
   | Raise e => Raise e
   | Ok qv =>
       match match doc_embeddings with
             | Some E => cosine_similarity [qv] E
             | None => cosine_similarity [qv] [qv]
             end with
       | Raise e => Raise e
       | Ok sims =>
           match fst (mapM (py_getitem documents)
                        (rev (py_slice_from (- k) (np_argsort (hd [] sims)))) []) with
           | Ok top_docs =>
               Ok (top_docs, map (fun i => nth i (hd [] sims) 0%R)
                               (rev (py_slice_from (- k) (np_argsort (hd [] sims)))))
           | Raise e => Raise e
           end
       end
   end, tr ++ [CallEmbedQuery query]).
Proof.
  unfold retrieve_with, bind, embed_query, lift.
  destruct (embed_query_api P query) as [qv|e]; [|reflexivity].
  destruct (match doc_embeddings with
            | Some E => cosine_similarity [qv] E
            | None => _ end) as [sims|e]; [|reflexivity].
  rewrite mapM_getitem_trace.
  destruct (fst (mapM (py_getitem documents) _ [])); reflexivity.
Qed.

Lemma retrieve_spec (P : Providers) (query : string) (documents : list string)
    (doc_embeddings : option (list (list R))) (k : Z) (tr : list call) :
  retrieve P query documents doc_embeddings k tr =
  (match embed_query_api P query with
   | Raise e => Raise e
   | Ok qv =>
       match match doc_embeddings with
             | Some E => cosine_similarity [qv] E
             | None => cosine_similarity [qv] [qv]
             end with
       | Raise e => Raise e
       | Ok sims =>
           match fst (mapM (py_getitem documents) (top_idx Rltb (hd [] sims) k) []) with
           | Ok top_docs =>
               Ok (top_docs, map (fun i => nth i (hd [] sims) 0%R) (top_idx Rltb (hd [] sims) k))
           | Raise e => Raise e
           end
       end
   end, tr ++ [CallEmbedQuery query]).
Proof. unfold retrieve. rewrite retrieve_with_spec. reflexivity. Qed.

Lemma cosine_similarity_query_row (qv : list R) (E sims : list (list R)) :
  cosine_similarity [qv] E = Ok sims ->
  sims = [map (fun y => dot (normalize_row qv) (normalize_row y)) E] /\ E <> [].
Proof.
  unfold cosine_similarity.
  destruct (check_array [qv]) as [dx|e]; [|discriminate].
  destruct (check_array E) as [dy|e] eqn:HE; [|discriminate].
  destruct (Nat.eqb dx dy); [|discriminate].
  intros H. inversion H. split; [reflexivity|].
  intros ->. discriminate.
Qed.

Lemma cosine_similarity_empty_corpus (X : list (list R)) :
  exists e, cosine_similarity X [] = Raise e.
Proof.
  unfold cosine_similarity. destruct (check_array X); simpl; eexists; reflexivity.
Qed.

(** C1 (as the code behaves).  For [k >= 1], a successful retrieval
    returns [min(k, n)] documents and [min(k, n)] scores, [n] being the
    number of corpus vectors: all of them ranked when [k > n].  With an
    empty corpus, the similarity computation raises instead of returning
    an empty list. *)
Theorem retrieve_length (P : Providers) (query : string) (documents : list string)
    (E : list (list R)) (k : Z) (tr : list call) (Hk : (1 <= k)%Z) :
  match fst (retrieve P query documents (Some E) k tr) with
  | Ok (top_docs, top_scores) =>
      Z.of_nat (List.length top_docs) = Z.min k (Z.of_nat (List.length E)) /\
      Z.of_nat (List.length top_scores) = Z.min k (Z.of_nat (List.length E))
  | Raise _ => True
  end /\
  (exists e, fst (retrieve P query documents (Some []) k tr) = Raise e).
Proof.
  split.
  - rewrite retrieve_spec. simpl fst.
    destruct (embed_query_api P query) as [qv|e]; [|exact I].
    destruct (cosine_similarity [qv] E) as [sims|e] eqn:Hc; [|exact I].
    apply cosine_similarity_query_row in Hc as [-> _]. simpl hd.
    set (scores := map _ E).
    assert (Hl : Z.of_nat (List.length (top_idx Rltb scores k))
                 = Z.min k (Z.of_nat (List.length E))).
    { rewrite top_idx_length by (exact Rltb_asym || exact Hk).
      unfold scores. now rewrite length_map. }
    destruct (fst (mapM (py_getitem documents) (top_idx Rltb scores k) [])) as [ys|e]
      eqn:Hm; [|exact I].
    apply mapM_getitem_ok in Hm. apply Forall2_length in Hm.
    split; [now rewrite <- Hm|now rewrite length_map].
  - rewrite retrieve_spec. simpl fst.
    destruct (embed_query_api P query) as [qv|e]; [|eexists; reflexivity].
    destruct (cosine_similarity_empty_corpus [qv]) as [e He]. rewrite He.
    eexists; reflexivity.
Qed.

Lemma retrieve_length_witness :
  (1 <= 2)%Z /\
  (match fst (retrieve providers_ok "q" ["a"; "b"]%string (Some [[1%R]; [1%R]]) 2 []) with
   | Ok (top_docs, top_scores) =>
       Z.of_nat (List.length top_docs) = Z.min 2 (Z.of_nat 2) /\
       Z.of_nat (List.length top_scores) = Z.min 2 (Z.of_nat 2)
   | Raise _ => True
   end /\
   (exists e, fst (retrieve providers_ok "q" ["a"; "b"]%string (Some []) 2 []) = Raise e)).
Proof.
  split; [lia|].
  exact (retrieve_length providers_ok "q" ["a"; "b"]%string [[1%R]; [1%R]] 2 []
           ltac:(lia)).
Defined.

(** C1, refuted as stated: with [k = 0] the slice [argsort()[-0:]] keeps the
    whole corpus, and with an empty corpus the call raises. *)
Lemma retrieve_k_zero_and_empty_corpus :
  match fst (retrieve providers_ok "q" ["a"]%string (Some [[1%R]]) 0 []) with
  | Ok (top_docs, _) => top_docs = ["a"]%string
  | Raise _ => False
  end /\
  (exists e, fst (retrieve providers_ok "q" [] (Some []) 1 []) = Raise e).
Proof.
  split; [reflexivity|]. eexists. reflexivity.
Qed.

(** C8. Retrieval has no hidden state and no randomness: two calls whose
    query embeddings agree, with the same documents, corpus vectors and
    [k], return the same documents and scores, whatever calls were made
    before them. *)
Theorem retrieve_deterministic (P P' : Providers) (query : string)
    (documents : list string) (doc_embeddings : option (list (list R))) (k : Z)
    (tr tr' : list call)
    (Hq : embed_query_api P query = embed_query_api P' query) :
  fst (retrieve P query documents doc_embeddings k tr)
    = fst (retrieve P' query documents doc_embeddings k tr').
Proof. rewrite !retrieve_spec. simpl. now rewrite Hq. Qed.

Lemma retrieve_deterministic_witness :
  embed_query_api providers_ok "q" = embed_query_api providers_ok "q" /\
  fst (retrieve providers_ok "q" ["a"; "b"]%string (Some [[1%R]; [1%R]]) 1 [])
    = fst (retrieve providers_ok "q" ["a"; "b"]%string (Some [[1%R]; [1%R]]) 1
             [CallEmbedQuery "earlier"%string]).
Proof.
  split; [reflexivity|].
  exact (retrieve_deterministic providers_ok providers_ok "q" ["a"; "b"]%string
           (Some [[1%R]; [1%R]]) 1 [] [CallEmbedQuery "earlier"%string] eq_refl).
Defined.

(** ** [rag] *)

Lemma retrieve_ok_inv (P : Providers) (query : string) (documents : list string)
    (doc_embeddings : option (list (list R))) (k : Z) (tr : list call)
    (top_docs : list string) (top_scores : list R) :
  fst (retrieve P query documents doc_embeddings k tr) = Ok (top_docs, top_scores) ->
  exists idx, Forall2 (fun i d => nth_error documents i = Some d) idx top_docs /\
              List.length top_scores = List.length idx.
Proof.
  rewrite retrieve_spec. simpl fst.
  destruct (embed_query_api P query) as [qv|e]; [|discriminate].
  destruct (match doc_embeddings with Some E => _ | None => _ end) as [sims|e];
    [|discriminate].
  destruct (fst (mapM (py_getitem documents) (top_idx Rltb (hd [] sims) k) [])) as [ys|e]
    eqn:Hm; [|discriminate].
  intros H. inversion H; subst.
  exists (top_idx Rltb (hd [] sims) k). split.
  - exact (mapM_getitem_ok _ _ _ _ Hm).
  - apply length_map.
Qed.

Lemma Forall2_nth_error_In {A} (l : list A) (idx : list nat) (ys : list A) :
  Forall2 (fun i y => nth_error l i = Some y) idx ys -> forall y, In y ys -> In y l.
Proof.
  induction 1 as [|i y idx ys Hi _ IH]; simpl; [tauto|].
  intros y' [<-|Hy]; [|now apply IH]. now apply nth_error_In with i.
Qed.

(** C10. Whenever [rag] returns, every context it returns is one of the
    input documents, the contexts are exactly the documents [retrieve]
    returned, and the score list given to [compute_confidence] has as many
    entries as there are contexts.  This holds for every [k], in
    particular for [1 <= k <= n]. *)
Theorem rag_contexts_from_documents (P : Providers) (question : string)
    (documents : list string) (doc_embeddings : option (list (list R))) (k : Z)
    (tr : list call) :
  match fst (rag P question documents doc_embeddings k tr) with
  | Ok (ans, ctxs, conf) =>
      (forall c, In c ctxs -> In c documents) /\
      exists sim_scores,
        fst (retrieve P question documents doc_embeddings k tr) = Ok (ctxs, sim_scores) /\
        List.length ctxs = List.length sim_scores /\
        conf = compute_confidence sim_scores
  | Raise _ => True
  end.
Proof.
  unfold rag, bind.
  destruct (retrieve P question documents doc_embeddings k tr) as [[[td sc]|e] tr1] eqn:Hr;
    [|exact I].
  unfold generate_answer. destruct (llm_api P _ _) as [ans|e]; [|exact I]. simpl.
  assert (Hf : fst (retrieve P question documents doc_embeddings k tr) = Ok (td, sc))
    by now rewrite Hr.
  destruct (retrieve_ok_inv _ _ _ _ _ _ _ _ Hf) as [idx [H2 Hl]].
  split; [exact (Forall2_nth_error_In _ _ _ H2)|].
  exists sc. split; [reflexivity|]. split; [|reflexivity].
  apply Forall2_length in H2. congruence.
Qed.

(** ** C2: [rag] and the Answer Generator *)

(** C2 (as the code behaves).  [rag] has no special case for any [k]: once
    retrieval succeeds, it calls the chat model exactly once, with the
    retrieved documents joined by newlines as the context; when retrieval
    raises, [rag] raises the same error and makes no further call. *)
Theorem rag_calls_generator (P : Providers) (question : string)
    (documents : list string) (doc_embeddings : option (list (list R))) (k : Z)
    (tr : list call) :
  match retrieve P question documents doc_embeddings k tr with
  | (Ok (retrieved_docs, _), tr1) =>
      snd (rag P question documents doc_embeddings k tr)
        = tr1 ++ [CallLLM system_prompt
                    (answer_prompt question (String.concat nl retrieved_docs))]
  | (Raise e, tr1) => rag P question documents doc_embeddings k tr = (Raise e, tr1)
  end.
Proof.
  unfold rag, bind.
  destruct (retrieve P question documents doc_embeddings k tr) as [[[td sc]|e] tr1];
    [|reflexivity].
  unfold generate_answer. destruct (llm_api P _ _); reflexivity.
Qed.

(** C2, refuted as stated: with [k = 0], [rag] returns the whole corpus as
    contexts and calls the chat model. *)
Lemma rag_k_zero_calls_generator :
  match rag providers_ok "q" ["a"]%string (Some [[1%R]]) 0 [] with
  | (Ok (_, ctxs, _), tr) =>
      ctxs = ["a"]%string /\
      tr = [CallEmbedQuery "q"; CallLLM system_prompt (answer_prompt "q" "a")]%string
  | _ => False
  end.
Proof. split; reflexivity. Qed.

(** ** [compute_confidence] *)

Local Open Scope R_scope.

Lemma fold_left_Rplus (xs : list R) (a : R) :
  fold_left Rplus xs a = a + fold_right Rplus 0 xs.
Proof.
  revert a. induction xs as [|x xs IH]; intros a; simpl; [ring|].
  rewrite IH. ring.
Qed.

Lemma clamp_eq (x : R) : Rmax 0 (Rmin 1 x) = spec_clamp01 x.
Proof.
  unfold Rmax, Rmin, spec_clamp01.
  destruct (Rle_dec 1 x), (Rlt_dec x 0), (Rlt_dec 1 x);
    try destruct (Rle_dec 0 1); try destruct (Rle_dec 0 x); lra.
Qed.

Lemma clamp_range (x : R) : 0 <= Rmax 0 (Rmin 1 x) <= 1.
Proof.
  unfold Rmax, Rmin. destruct (Rle_dec 1 x); destruct (Rle_dec 0 _); lra.
Qed.

Lemma up_IZR (z : Z) : up (IZR z) = (z + 1)%Z.
Proof.
  symmetry. apply tech_up; rewrite plus_IZR; lra.
Qed.

Lemma Int_part_IZR (z : Z) : Int_part (IZR z) = z.
Proof. unfold Int_part. rewrite up_IZR. lia. Qed.

Lemma round_half_even_IZR (z : Z) : round_half_even (IZR z) = z.
Proof.
  unfold round_half_even. rewrite Int_part_IZR.
  destruct (Rlt_dec (IZR z - IZR z) (1 / 2)); [reflexivity|lra].
Qed.

Lemma py_round2_hundredths (z : Z) : py_round2 (IZR z / 100) = IZR z / 100.
Proof.
  unfold py_round2. replace (IZR z / 100 * 100) with (IZR z) by field.
  now rewrite round_half_even_IZR.
Qed.

(** [round_half_even] picks the floor or the next integer, the latter only
    at or above the midpoint. *)
Lemma round_half_even_cases (x : R) :
  IZR (Int_part x) <= x < IZR (Int_part x) + 1 /\
  (round_half_even x = Int_part x \/
   (round_half_even x = (Int_part x + 1)%Z /\ IZR (Int_part x) + 1 / 2 <= x)).
Proof.
  destruct (base_Int_part x) as [H1 H2].
  split; [lra|]. unfold round_half_even.
  destruct (Rlt_dec (x - IZR (Int_part x)) (1 / 2)); [now left|].
  destruct (Rlt_dec (1 / 2) (x - IZR (Int_part x))); [right; split; [reflexivity|lra]|].
  destruct (Z.even (Int_part x)); [now left|right; split; [reflexivity|lra]].
Qed.

Lemma round_half_even_range (x : R) :
  0 <= x <= 100 -> (0 <= round_half_even x <= 100)%Z.
Proof.
  intros Hx. destruct (round_half_even_cases x) as [[Hf1 Hf2] Hr].
  assert (Hge : (-1 < Int_part x)%Z) by (apply lt_IZR; lra).
  destruct Hr as [->|[-> Hmid]].
  - assert (Hle : (Int_part x <= 100)%Z) by (apply le_IZR; lra). lia.
  - assert (Hlt : (Int_part x < 100)%Z) by (apply lt_IZR; lra). lia.
Qed.

Lemma py_round2_range (x : R) : 0 <= x <= 1 -> 0 <= py_round2 x <= 1.
Proof.
  intros Hx. unfold py_round2.
  destruct (round_half_even_range (x * 100)) as [H0 H1]; [lra|].
  apply IZR_le in H0, H1. simpl in H0, H1. lra.
Qed.

(** C4. [compute_confidence] is the spec's estimator: the mean of the
    scores, clamped to [0, 1], rounded to 2 decimal places, 0 on empty
    input; its value is always in [0, 1]; and on the spec's examples it
    gives 0, 1, 0 and 0.6. *)
Theorem compute_confidence_spec :
  (forall xs, compute_confidence xs = spec_confidence xs /\
              0 <= compute_confidence xs <= 1) /\
  compute_confidence [] = 0 /\
  compute_confidence [1; 1] = 1 /\
  compute_confidence [-5] = 0 /\
  compute_confidence [1 / 2; 7 / 10] = 6 / 10.
Proof.
  split; [|split; [reflexivity|]].
  { intros xs. destruct xs as [|x xs']; [split; [reflexivity|simpl; lra]|].
    unfold compute_confidence, spec_confidence, spec_mean, py_sum.
    rewrite fold_left_Rplus, Rplus_0_l, clamp_eq. split; [reflexivity|].
    apply py_round2_range. rewrite <- clamp_eq. apply clamp_range. }
  unfold compute_confidence, py_sum. simpl fold_left. simpl List.length.
  split; [|split].
  - replace (Rmax 0 (Rmin 1 ((0 + 1 + 1) / INR 2))) with (IZR 100 / 100).
    + rewrite py_round2_hundredths. field.
    + replace ((0 + 1 + 1) / INR 2) with 1 by (simpl; field).
      unfold Rmax, Rmin. destruct (Rle_dec 1 1); [|lra]. destruct (Rle_dec 0 1); lra.
  - replace (Rmax 0 (Rmin 1 ((0 + -5) / INR 1))) with (IZR 0 / 100).
    + rewrite py_round2_hundredths. field.
    + replace ((0 + -5) / INR 1) with (-5) by (simpl; field).
      unfold Rmax, Rmin. destruct (Rle_dec 1 (-5)); [lra|]. destruct (Rle_dec 0 (-5)); lra.
  - replace (Rmax 0 (Rmin 1 ((0 + 1 / 2 + 7 / 10) / INR 2))) with (IZR 60 / 100).
    + rewrite py_round2_hundredths. field.
    + replace ((0 + 1 / 2 + 7 / 10) / INR 2) with (6 / 10) by (simpl; field).
      unfold Rmax, Rmin. destruct (Rle_dec 1 (6 / 10)); [lra|].
      destruct (Rle_dec 0 (6 / 10)); [field|lra].
Qed.

Local Close Scope R_scope.

(** ** sklearn's cosine similarity *)

Local Open Scope R_scope.

Lemma dot_self_nonneg (u : list R) : 0 <= dot u u.
Proof.
  induction u as [|x u IH]; simpl; [lra|]. pose proof (Rle_0_sqr x). unfold Rsqr in *. lra.
Qed.

Lemma dot_self_zero (u : list R) : dot u u = 0 -> Forall (fun x => x = 0) u.
Proof.
  induction u as [|x u IH]; simpl; intros H; [constructor|].
  pose proof (dot_self_nonneg u). pose proof (Rle_0_sqr x). unfold Rsqr in *.
  assert (Hx : x * x = 0) by lra.
  constructor; [nra|]. apply IH. lra.
Qed.

Lemma dot_zero_l (u v : list R) : Forall (fun x => x = 0) u -> dot u v = 0.
Proof.
  intros Hu. revert v. induction Hu as [|x u Hx _ IH]; intros v; [reflexivity|].
  destruct v as [|y v]; simpl; [reflexivity|]. rewrite Hx, IH. ring.
Qed.

Lemma dot_zero_r (u v : list R) : Forall (fun x => x = 0) v -> dot u v = 0.
Proof.
  intros Hv. revert u. induction Hv as [|y v Hy _ IH]; intros u;
    destruct u as [|x u]; simpl; try reflexivity.
  rewrite Hy, IH. ring.
Qed.

Lemma Forall_zero_div (u : list R) (s : R) :
  Forall (fun x => x = 0) u -> Forall (fun x => x = 0) (map (fun xi => xi / s) u).
Proof.
  induction 1 as [|x u Hx _ IH]; simpl; constructor; [|exact IH].
  rewrite Hx. unfold Rdiv. ring.
Qed.

Lemma dot_map_div (u : list R) (s : R) :
  s <> 0 -> dot (map (fun a => a / s) u) (map (fun a => a / s) u) = dot u u / (s * s).
Proof.
  intros Hs. induction u as [|x u IH]; simpl; [field; exact Hs|].
  rewrite IH. field. exact Hs.
Qed.

(** [2 |u.v| <= u.u + v.v], on rows of any lengths. *)
Lemma dot_two_bound (u v : list R) :
  2 * dot u v <= dot u u + dot v v /\ - (dot u u + dot v v) <= 2 * dot u v.
Proof.
  revert v. induction u as [|x u IH]; intros v.
  - simpl. pose proof (dot_self_nonneg v). lra.
  - destruct v as [|y v].
    + simpl. pose proof (dot_self_nonneg (x :: u)). simpl in *. split; lra.
    + simpl. destruct (IH v) as [H1 H2].
      pose proof (Rle_0_sqr (x - y)). pose proof (Rle_0_sqr (x + y)).
      unfold Rsqr in *. split; nra.
Qed.

Lemma pow2_ge1 (n : nat) : 1 <= 2 ^ n.
Proof. induction n as [|n IH]; simpl; lra. Qed.

Lemma eps_threshold_range : 0 < 10 * eps <= 1.
Proof.
  unfold eps.
  assert (H : 16 <= 2 ^ 52).
  { replace 52%nat with (4 + 48)%nat by reflexivity. rewrite pow_add.
    pose proof (pow2_ge1 48). simpl (2 ^ 4). nra. }
  split.
  - apply Rmult_lt_0_compat; [lra|]. apply Rinv_0_lt_compat. lra.
  - apply (Rmult_le_reg_r (2 ^ 52)); [lra|].
    rewrite Rmult_assoc, Rinv_l by lra. lra.
Qed.

Lemma row_norm_nonneg (x : list R) : 0 <= row_norm x.
Proof. apply sqrt_pos. Qed.

Lemma handle_zeros_in_scale_nonzero (x : list R) :
  handle_zeros_in_scale (row_norm x) <> 0.
Proof.
  unfold handle_zeros_in_scale. pose proof eps_threshold_range.
  destruct (Rlt_dec (row_norm x) (10 * eps)); lra.
Qed.

Lemma normalize_row_zero (x : list R) :
  row_norm x = 0 -> Forall (fun a => a = 0) (normalize_row x).
Proof.
  intros H. unfold row_norm in H. apply sqrt_eq_0 in H; [|apply dot_self_nonneg].
  apply Forall_zero_div, dot_self_zero, H.
Qed.

Lemma normalize_row_self_le1 (x : list R) :
  dot (normalize_row x) (normalize_row x) <= 1.
Proof.
  unfold normalize_row. rewrite dot_map_div by apply handle_zeros_in_scale_nonzero.
  pose proof eps_threshold_range as Heps. pose proof (dot_self_nonneg x) as Hd.
  assert (Hsq : row_norm x * row_norm x = dot x x) by (apply sqrt_sqrt, Hd).
  pose proof (row_norm_nonneg x) as Hn.
  unfold handle_zeros_in_scale.
  destruct (Rlt_dec (row_norm x) (10 * eps)) as [Hlt|Hge].
  - replace (dot x x / (1 * 1)) with (dot x x) by field. nra.
  - rewrite Hsq. assert (Hpos : 0 < dot x x) by nra.
    unfold Rdiv. rewrite Rinv_r by lra. lra.
Qed.

Lemma Forall2_map_r {A B} (P : A -> B -> Prop) (f : A -> B) (l : list A) :
  Forall (fun y => P y (f y)) l -> Forall2 P l (map f l).
Proof. induction 1; simpl; constructor; assumption. Qed.

(** C5. Each score [cosine_similarity] computes for a query row [qv] and a
    corpus row [y] is 0 when [||qv|| = 0] or [||y|| = 0], and lies in
    [[-1, 1]] in every case (all-zero rows and identical rows included);
    the divisor applied to any row is never 0. *)
Theorem cosine_similarity_zero_norm (qv : list R) (E sims : list (list R))
    (Hc : cosine_similarity [qv] E = Ok sims) :
  Forall2 (fun y s => ((row_norm qv = 0 \/ row_norm y = 0) -> s = 0) /\ -1 <= s <= 1)
          E (hd [] sims) /\
  (forall x, handle_zeros_in_scale (row_norm x) <> 0).
Proof.
  split; [|exact handle_zeros_in_scale_nonzero].
  apply cosine_similarity_query_row in Hc as [-> _]. simpl hd.
  apply Forall2_map_r. apply Forall_forall. intros y _. split.
  - intros [Hq|Hy].
    + apply dot_zero_l, normalize_row_zero, Hq.
    + apply dot_zero_r, normalize_row_zero, Hy.
  - destruct (dot_two_bound (normalize_row qv) (normalize_row y)) as [H1 H2].
    pose proof (normalize_row_self_le1 qv). pose proof (normalize_row_self_le1 y).
    lra.
Qed.

Lemma cosine_similarity_zero_norm_witness :
  exists sims,
    cosine_similarity [[0; 0]] [[0; 0]; [3; 4]] = Ok sims /\
    Forall2 (fun y s => ((row_norm [0; 0] = 0 \/ row_norm y = 0) -> s = 0) /\ -1 <= s <= 1)
            [[0; 0]; [3; 4]] (hd [] sims) /\
    (forall x, handle_zeros_in_scale (row_norm x) <> 0).
Proof.
  eexists. split; [reflexivity|].
  apply (cosine_similarity_zero_norm [0; 0] [[0; 0]; [3; 4]]). reflexivity.
Defined.

Local Close Scope R_scope.

(** * Further properties of the code *)

(** ** [str.strip] and [load_txt] *)

Lemma lstrip_list_head (l r : list ascii) (c : ascii) :
  lstrip_list l = c :: r -> is_space c = false.
Proof.
  induction l as [|c' l IH]; simpl; [discriminate|].
  destruct (is_space c') eqn:Hc; [exact IH|]. intros H. now inversion H; subst.
Qed.

Lemma lstrip_list_noop (l : list ascii) :
  match l with [] => True | c :: _ => is_space c = false end -> lstrip_list l = l.
Proof. destruct l as [|c l]; simpl; [reflexivity|]. now intros ->. Qed.

Lemma lstrip_list_idem (l : list ascii) : lstrip_list (lstrip_list l) = lstrip_list l.
Proof.
  induction l as [|c l IH]; simpl; [reflexivity|].
  destruct (is_space c) eqn:Hc; [exact IH|]. simpl. now rewrite Hc.
Qed.

Lemma lstrip_list_suffix (l : list ascii) : exists p, l = p ++ lstrip_list l.
Proof.
  induction l as [|c l [p Hp]]; simpl; [now exists []|].
  destruct (is_space c); [exists (c :: p); simpl; now f_equal|now exists []].
Qed.

Lemma py_strip_idem (s : string) : py_strip (py_strip s) = py_strip s.
Proof.
  unfold py_strip. rewrite list_ascii_of_string_of_list_ascii. f_equal.
  set (a := lstrip_list (list_ascii_of_string s)).
  set (b := lstrip_list (rev a)).
  destruct (lstrip_list_suffix (rev a)) as [p Hp]. fold b in Hp.
  assert (Ha : a = rev b ++ rev p) by (rewrite <- rev_app_distr, <- Hp, rev_involutive; reflexivity).
  rewrite (lstrip_list_noop (rev b)).
  - rewrite rev_involutive. unfold b at 1. now rewrite lstrip_list_idem.
  - destruct (rev b) as [|c r] eqn:Hrb; [exact I|].
    apply (lstrip_list_head (list_ascii_of_string s) (r ++ rev p)).
    fold a. rewrite Ha. reflexivity.
Qed.

Lemma load_txt_trace (fs : FileSystem) (path : string) (tr : list call) :
  load_txt fs path tr = (fst (load_txt fs path []), tr).
Proof. unfold load_txt, bind, lift, ret. destruct (fs path); reflexivity. Qed.

(** X1. [load_txt] raises exactly the error of opening the file; otherwise
    none of the lines it returns is empty or starts or ends with
    whitespace.  It makes no external call. *)
Theorem load_txt_lines (fs : FileSystem) (path : string) (tr : list call) :
  match fs path with
  | Raise e => load_txt fs path tr = (Raise e, tr)
  | Ok _ =>
      exists lines, load_txt fs path tr = (Ok lines, tr) /\
        Forall (fun l => l <> EmptyString /\ py_strip l = l) lines
  end.
Proof.
  unfold load_txt, bind, lift, ret. destruct (fs path) as [contents|e]; [|reflexivity].
  eexists. split; [reflexivity|]. apply Forall_forall. intros l Hl.
  apply filter_In in Hl as [Hin Hne]. apply in_map_iff in Hin as [x [<- _]].
  split; [|apply py_strip_idem].
  intros Heq. rewrite Heq in Hne. discriminate.
Qed.

(** ** [build_index] *)

(** X2. On a [".txt"] path, [build_index] loads the file and, if that
    succeeds, makes exactly one external call, embedding the loaded lines,
    and returns them with the vectors the provider answered; a file error
    is raised before any call. *)
Theorem build_index_txt (fs : FileSystem) (P : Providers) (path : string)
    (tr : list call) (Hext : py_endswith path ".txt" = true) :
  match fst (load_txt fs path []) with
  | Raise e => build_index fs P path tr = (Raise e, tr)
  | Ok docs =>
      build_index fs P path tr
        = (match embed_documents_api P docs with
           | Ok E => Ok (docs, E)
           | Raise e => Raise e
           end, tr ++ [CallEmbedDocuments docs])
  end.
Proof.
  unfold build_index, load_documents. rewrite Hext. unfold bind.
  rewrite (load_txt_trace fs path tr).
  destruct (fst (load_txt fs path [])) as [docs|e]; [|reflexivity].
  unfold embed_texts, ret. destruct (embed_documents_api P docs); reflexivity.
Qed.

Lemma build_index_txt_witness :
  py_endswith "input.txt" ".txt" = true /\
  build_index (fun _ => Ok ("cats are mammals" ++ nl ++ "  " ++ nl)%string) providers_ok
      "input.txt" []
    = (Ok (["cats are mammals"]%string, [[1%R]]),
       [CallEmbedDocuments ["cats are mammals"]%string]).
Proof.
  split; [reflexivity|].
  exact (build_index_txt (fun _ => Ok ("cats are mammals" ++ nl ++ "  " ++ nl)%string)
           providers_ok "input.txt" [] eq_refl).
Defined.

(** ** [startup_event], [health_check], [get_stats] *)

Lemma startup_event_eq (fs : FileSystem) (pdf : PdfLoader) (P : Providers) (tr : list call) :
  startup_event fs pdf P tr =
  match fst (load_txt fs "data/input.txt" []) with
  | Raise _ => (Ok failed_state, tr)
  | Ok dt =>
      match pdf "data/doc.pdf"%string with
      | Raise _ => (Ok failed_state, tr)
      | Ok dp =>
          (match embed_documents_api P (dt ++ dp) with
           | Ok E => Ok {| DOCUMENTS := Some (dt ++ dp); DOC_EMBEDDINGS := Some E |}
           | Raise _ => Ok failed_state
           end, tr ++ [CallEmbedDocuments (dt ++ dp)])
      end
  end.
Proof.
  unfold startup_event, try_except, bind. rewrite (load_txt_trace fs _ tr).
  destruct (fst (load_txt fs "data/input.txt" [])) as [dt|e]; [|reflexivity].
  unfold load_pdf, lift. destruct (pdf "data/doc.pdf"%string) as [dp|e]; [|reflexivity].
  unfold embed_texts, ret. destruct (embed_documents_api P (dt ++ dp)); reflexivity.
Qed.

(** X3. [startup_event] never raises.  The state it leaves is either the
    fallback ([DOCUMENTS = []], [DOC_EMBEDDINGS = None]) or a list of
    documents together with exactly the vectors the embedding provider
    returned for that list; its only possible external call is one
    document-embedding request. *)
Theorem startup_event_consistent (fs : FileSystem) (pdf : PdfLoader) (P : Providers)
    (tr : list call) :
  exists st,
    fst (startup_event fs pdf P tr) = Ok st /\
    ((DOCUMENTS st = Some [] /\ DOC_EMBEDDINGS st = None) \/
     (exists docs E, DOCUMENTS st = Some docs /\ DOC_EMBEDDINGS st = Some E /\
                     embed_documents_api P docs = Ok E)) /\
    (snd (startup_event fs pdf P tr) = tr \/
     exists docs, snd (startup_event fs pdf P tr) = tr ++ [CallEmbedDocuments docs]).
Proof.
  rewrite startup_event_eq.
  destruct (fst (load_txt fs "data/input.txt" [])) as [dt|e].
  2: { exists failed_state. simpl. auto. }
  destruct (pdf "data/doc.pdf"%string) as [dp|e].
  2: { exists failed_state. simpl. auto. }
  destruct (embed_documents_api P (dt ++ dp)) as [E|e] eqn:HE.
  - eexists. split; [reflexivity|]. split.
    + right. exists (dt ++ dp), E. auto.
    + right. exists (dt ++ dp). reflexivity.
  - exists failed_state. split; [reflexivity|]. split; [left; auto|].
    right. exists (dt ++ dp). reflexivity.
Qed.

(** X4. If [data/input.txt] or [data/doc.pdf] cannot be loaded, startup makes
    no external call and leaves the fallback state; then [/health]
    reports [documents_not_loaded] with no documents and no embeddings, and
    every [/ask] answers the "documents not loaded" message without any
    external call, whatever the providers. *)
Theorem startup_file_failure (fs : FileSystem) (pdf : PdfLoader) (P : Providers)
    (tr : list call) (e : exn)
    (Hfail : fs "data/input.txt"%string = Raise e \/ pdf "data/doc.pdf"%string = Raise e) :
  exists st,
    startup_event fs pdf P tr = (Ok st, tr) /\
    health_check st =
      {| status := "documents_not_loaded"; documents_loaded := 0; embeddings_ready := false;
         message := "Set OPENAI_API_KEY environment variable to enable document loading" |} /\
    (forall (P' : Providers) (payload : QuestionRequest) (tr0 : list call),
        ask_question st P' payload tr0
          = (Ok (response payload docs_not_loaded_msg [] 0%R), tr0)).
Proof.
  exists failed_state. split; [|split; reflexivity].
  rewrite startup_event_eq.
  destruct Hfail as [Hfs|Hpdf].
  - unfold load_txt, bind, lift. rewrite Hfs. reflexivity.
  - destruct (fst (load_txt fs "data/input.txt" [])); [|reflexivity].
    rewrite Hpdf. reflexivity.
Qed.

Lemma startup_file_failure_witness :
  (fs_missing "data/input.txt"%string = Raise missing_input_error
   \/ pdf_empty "data/doc.pdf"%string = Raise missing_input_error) /\
  exists st,
    startup_event fs_missing pdf_empty providers_ok [] = (Ok st, []) /\
    health_check st =
      {| status := "documents_not_loaded"; documents_loaded := 0; embeddings_ready := false;
         message := "Set OPENAI_API_KEY environment variable to enable document loading" |} /\
    (forall (P' : Providers) (payload : QuestionRequest) (tr0 : list call),
        ask_question st P' payload tr0
          = (Ok (response payload docs_not_loaded_msg [] 0%R), tr0)).
Proof.
  split; [left; reflexivity|].
  apply (startup_file_failure fs_missing pdf_empty providers_ok [] missing_input_error).
  left. reflexivity.
Defined.

(** X5. [/stats] raises exactly when [DOC_EMBEDDINGS] holds no vector at all.
    This happens after a successful startup on empty sources: when both
    files yield no document and the provider embeds the empty list as an
    empty list, [/health] reports [embeddings_ready] but [/stats] fails
    with an [IndexError]. *)
Theorem get_stats_empty_index (fs : FileSystem) (pdf : PdfLoader) (P : Providers)
    (tr : list call)
    (Htxt : fst (load_txt fs "data/input.txt" []) = Ok [])
    (Hpdf : pdf "data/doc.pdf"%string = Ok [])
    (Hemb : embed_documents_api P [] = Ok []) :
  (forall st, (exists e, get_stats st = Raise e) <-> DOC_EMBEDDINGS st = Some []) /\
  exists st,
    fst (startup_event fs pdf P tr) = Ok st /\
    embeddings_ready (health_check st) = true /\
    status (health_check st) = "documents_not_loaded"%string /\
    get_stats st = Raise (IndexError "tuple index out of range").
Proof.
  split.
  - intros st. unfold get_stats. split.
    + destruct (DOC_EMBEDDINGS st) as [[|r E]|]; intros [e He]; try discriminate; reflexivity.
    + intros ->. eexists. reflexivity.
  - rewrite startup_event_eq, Htxt, Hpdf. simpl app. rewrite Hemb.
    eexists. repeat split.
Qed.

Lemma get_stats_empty_index_witness :
  fst (load_txt (fun _ => Ok ("  " ++ nl)%string) "data/input.txt" []) = Ok [] /\
  pdf_empty "data/doc.pdf"%string = Ok [] /\
  embed_documents_api providers_ok [] = Ok [] /\
  (forall st, (exists e, get_stats st = Raise e) <-> DOC_EMBEDDINGS st = Some []) /\
  exists st,
    fst (startup_event (fun _ => Ok ("  " ++ nl)%string) pdf_empty providers_ok []) = Ok st /\
    embeddings_ready (health_check st) = true /\
    status (health_check st) = "documents_not_loaded"%string /\
    get_stats st = Raise (IndexError "tuple index out of range").
Proof.
  split; [reflexivity|]. split; [reflexivity|]. split; [reflexivity|].
  apply (get_stats_empty_index (fun _ => Ok ("  " ++ nl)%string) pdf_empty providers_ok []);
    reflexivity.
Defined.

(** ** [ingest_to_milvus] *)

(** X6. As soon as the two loaders return at least one line or page,
    [ingest_to_milvus] fails in [split_documents] (the loaders return
    strings, not [Document]s) whatever the vector store would do: it
    never reaches [Milvus.from_documents]. *)
Theorem ingest_to_milvus_non_empty_fails {VS : Type} (fs : FileSystem) (pdf : PdfLoader)
    (from_documents : list string -> ingest_error + VS) (docs_txt docs_pdf : list string)
    (Htxt : fst (load_txt fs "data\input.txt" []) = Ok docs_txt)
    (Hpdf : pdf "data\doc.pdf"%string = Ok docs_pdf)
    (Hne : docs_txt ++ docs_pdf <> []) :
  ingest_to_milvus fs pdf from_documents
    = inl (AttributeError "'str' object has no attribute 'page_content'").
Proof.
  unfold ingest_to_milvus. rewrite Htxt, Hpdf.
  destruct (docs_txt ++ docs_pdf) as [|d ds]; [contradiction|reflexivity].
Qed.

Lemma ingest_to_milvus_non_empty_fails_witness :
  fst (load_txt (fun _ => Ok "cats are mammals"%string) "data\input.txt" [])
    = Ok ["cats are mammals"%string] /\
  pdf_empty "data\doc.pdf"%string = Ok [] /\
  ["cats are mammals"%string] ++ [] <> [] /\
  ingest_to_milvus (fun _ => Ok "cats are mammals"%string) pdf_empty
      (fun _ => inr tt : ingest_error + unit)
    = inl (AttributeError "'str' object has no attribute 'page_content'").
Proof.
  split; [reflexivity|]. split; [reflexivity|]. split; [discriminate|].
  apply (ingest_to_milvus_non_empty_fails (fun _ => Ok "cats are mammals"%string) pdf_empty
           (fun _ => inr tt) ["cats are mammals"%string] []); [reflexivity|reflexivity|discriminate].
Defined.

(** ** [compute_confidence]: monotonicity, granularity *)

Local Open Scope R_scope.

Lemma Int_part_le (x y : R) : x <= y -> (Int_part x <= Int_part y)%Z.
Proof.
  intros Hxy. destruct (base_Int_part x) as [Hx1 Hx2]. destruct (base_Int_part y) as [Hy1 Hy2].
  destruct (Z_le_gt_dec (Int_part x) (Int_part y)) as [H|H]; [exact H|].
  assert (H' : (Int_part y + 1 <= Int_part x)%Z) by lia.
  apply IZR_le in H'. rewrite plus_IZR in H'. simpl in H'. lra.
Qed.

Lemma round_half_even_le (x y : R) : x <= y -> (round_half_even x <= round_half_even y)%Z.
Proof.
  intros Hxy. pose proof (Int_part_le x y Hxy) as Hf.
  destruct (base_Int_part x) as [Hx1 Hx2]. destruct (base_Int_part y) as [Hy1 Hy2].
  destruct (Z.eq_dec (Int_part x) (Int_part y)) as [Heq|Hne].
  - unfold round_half_even. rewrite <- Heq.
    set (f := Int_part x) in *.
    destruct (Rlt_dec (x - IZR f) (1 / 2)); destruct (Rlt_dec (y - IZR f) (1 / 2));
      try destruct (Rlt_dec (1 / 2) (x - IZR f)); try destruct (Rlt_dec (1 / 2) (y - IZR f));
      try destruct (Z.even f); try lia; lra.
  - destruct (round_half_even_cases x) as [_ Hrx]. destruct (round_half_even_cases y) as [_ Hry].
    destruct Hrx as [->|[-> _]]; destruct Hry as [->|[-> _]]; lia.
Qed.

Lemma py_round2_le (x y : R) : x <= y -> py_round2 x <= py_round2 y.
Proof.
  intros Hxy. unfold py_round2. apply Rmult_le_compat_r; [lra|].
  apply IZR_le, round_half_even_le. lra.
Qed.

Lemma clamp_le (x y : R) : x <= y -> Rmax 0 (Rmin 1 x) <= Rmax 0 (Rmin 1 y).
Proof.
  intros Hxy. unfold Rmax, Rmin.
  destruct (Rle_dec 1 x), (Rle_dec 1 y); destruct (Rle_dec 0 1); try destruct (Rle_dec 0 x);
    try destruct (Rle_dec 0 y); lra.
Qed.

Lemma Forall2_Rle_sum (xs ys : list R) :
  Forall2 Rle xs ys -> fold_right Rplus 0 xs <= fold_right Rplus 0 ys.
Proof. induction 1; simpl; lra. Qed.

(** X8. Raising some scores (and lowering none) never lowers the confidence. *)
Theorem compute_confidence_monotone (xs ys : list R) (Hle : Forall2 Rle xs ys) :
  compute_confidence xs <= compute_confidence ys.
Proof.
  destruct Hle as [|x y xs' ys' Hxy Hrest]; [simpl; lra|].
  pose proof (Forall2_length Hrest) as Hlen.
  unfold compute_confidence, py_sum.
  apply py_round2_le, clamp_le.
  rewrite !fold_left_Rplus. simpl List.length. rewrite Hlen.
  unfold Rdiv. apply Rmult_le_compat_r.
  - left. apply Rinv_0_lt_compat, lt_0_INR. lia.
  - pose proof (Forall2_Rle_sum _ _ (Forall2_cons x y Hxy Hrest)). simpl in *. lra.
Qed.

Lemma compute_confidence_monotone_witness :
  Forall2 Rle [1 / 4; 1 / 2] [1 / 2; 1 / 2] /\
  compute_confidence [1 / 4; 1 / 2] <= compute_confidence [1 / 2; 1 / 2].
Proof.
  assert (H : Forall2 Rle [1 / 4; 1 / 2] [1 / 2; 1 / 2])
    by (repeat constructor; lra).
  split; [exact H|]. exact (compute_confidence_monotone _ _ H).
Defined.

(** X9. The confidence is always one of the 101 values [0, 0.01, ..., 1]. *)
Theorem compute_confidence_hundredths (xs : list R) :
  exists z : Z, (0 <= z <= 100)%Z /\ compute_confidence xs = IZR z / 100.
Proof.
  destruct xs as [|x xs'].
  - exists 0%Z. split; [lia|]. simpl. lra.
  - unfold compute_confidence, py_round2.
    set (c := Rmax 0 (Rmin 1 (py_sum (x :: xs') / INR (List.length (x :: xs'))))).
    exists (round_half_even (c * 100)). split; [|reflexivity].
    apply round_half_even_range. pose proof (clamp_range (py_sum (x :: xs') / INR (List.length (x :: xs')))).
    fold c in H. lra.
Qed.

Local Close Scope R_scope.

(** ** The top-k selection on float scores *)

Lemma asc_Rltb_iff (p q : nat * R) :
  asc Rltb p q <-> ((snd p < snd q)%R \/ (snd p = snd q /\ (fst p < fst q)%nat)).
Proof.
  unfold asc. split.
  - intros [H1 H2]. apply Rltb_false in H1.
    destruct (Rlt_dec (snd p) (snd q)) as [H|H]; [now left|].
    right. split; [lra|]. apply H2. apply Rltb_false. lra.
  - intros [H|[H1 H2]]; split.
    + apply Rltb_false. lra.
    + intros H'. apply Rltb_false in H'. lra.
    + apply Rltb_false. lra.
    + intros _. exact H2.
Qed.

Lemma asc_Rltb_trans (p q r : nat * R) : asc Rltb p q -> asc Rltb q r -> asc Rltb p r.
Proof.
  rewrite !asc_Rltb_iff. intros [H|[H1 H2]] [H'|[H1' H2']].
  - left. lra.
  - left. lra.
  - left. lra.
  - right. split; [lra|lia].
Qed.

Lemma sorted_pairs_strong (a : list R) : StronglySorted (asc Rltb) (sorted_pairs Rltb a).
Proof.
  apply Sorted_StronglySorted; [exact asc_Rltb_trans|].
  exact (proj1 (sorted_pairs_props R Rltb Rltb_asym a 0%R)).
Qed.

Lemma StronglySorted_app_rel {A} (Rel : A -> A -> Prop) (l1 l2 : list A) :
  StronglySorted Rel (l1 ++ l2) -> forall x y, In x l1 -> In y l2 -> Rel x y.
Proof.
  induction l1 as [|z l1 IH]; simpl; [tauto|].
  intros Hs x y [<-|Hx] Hy; apply StronglySorted_inv in Hs as [Hs Hall].
  - rewrite Forall_forall in Hall. apply Hall, in_or_app. now right.
  - now apply IH.
Qed.

Lemma argsort_NoDup (a : list R) : NoDup (argsort Rltb a).
Proof.
  rewrite argsort_sorted_pairs.
  destruct (sorted_pairs_props R Rltb Rltb_asym a 0%R) as [_ [Hp _]].
  pose proof (sorted_pairs_strong a) as Hs.
  induction (sorted_pairs Rltb a) as [|[i s] L IH]; simpl; [constructor|].
  apply StronglySorted_inv in Hs as [Hs Hall]. constructor.
  - intros Hin. apply in_map_iff in Hin as [[j t] [Hj Hin']]. simpl in Hj. subst j.
    rewrite Forall_forall in Hall. specialize (Hall _ Hin'). apply asc_Rltb_iff in Hall.
    simpl in Hall.
    destruct (Hp i s (or_introl eq_refl)) as [_ Hs1].
    destruct (Hp i t (or_intror Hin')) as [_ Ht1].
    destruct Hall as [H|[_ H]]; [|lia]. subst s t. lra.
  - apply IH; [|exact Hs]. intros i' s' H. apply Hp. now right.
Qed.

Lemma argsort_perm_seq (a : list R) : Permutation (argsort Rltb a) (seq 0 (List.length a)).
Proof.
  destruct (sorted_pairs_props R Rltb Rltb_asym a 0%R) as [_ [Hp Hlen]].
  assert (Hincl : incl (argsort Rltb a) (seq 0 (List.length a))).
  { intros i Hi. rewrite argsort_sorted_pairs in Hi.
    apply in_map_iff in Hi as [[j s] [<- Hin]]. apply in_seq.
    destruct (Hp j s Hin). simpl. lia. }
  apply NoDup_Permutation; [apply argsort_NoDup|apply seq_NoDup|].
  intros i. split; [apply Hincl|].
  apply (NoDup_length_incl (argsort_NoDup a)); [|exact Hincl].
  rewrite argsort_sorted_pairs, length_map, Hlen, length_seq. lia.
Qed.

(** X10. [retrieve] never returns the same document index twice. *)
Theorem top_idx_NoDup (scores : list R) (k : Z) : NoDup (top_idx Rltb scores k).
Proof.
  unfold top_idx, py_slice_from. apply NoDup_rev.
  pose proof (argsort_NoDup scores) as H.
  rewrite <- (firstn_skipn (Z.to_nat (if (- k <? 0)%Z
      then Z.max 0 (- k + Z.of_nat (List.length (argsort Rltb scores)))
      else Z.min (- k) (Z.of_nat (List.length (argsort Rltb scores))))) (argsort Rltb scores)) in H.
  now apply NoDup_app_remove_l in H.
Qed.

Lemma top_idx_all_perm (scores : list R) (k : Z) :
  (Z.of_nat (List.length scores) <= k)%Z ->
  Permutation (top_idx Rltb scores k) (seq 0 (List.length scores)).
Proof.
  intros Hk.
  unfold top_idx, py_slice_from.
  destruct (sorted_pairs_props R Rltb Rltb_asym scores 0%R) as [_ [_ Hlen]].
  assert (HL : List.length (argsort Rltb scores) = List.length scores)
    by (rewrite argsort_sorted_pairs, length_map; exact Hlen).
  rewrite HL.
  destruct (Z.ltb_spec (- k) 0) as [Hneg|Hnn].
  - replace (Z.to_nat (Z.max 0 (- k + Z.of_nat (List.length scores)))) with 0%nat by lia.
    simpl skipn. rewrite <- Permutation_rev. apply argsort_perm_seq.
  - assert (Hz : List.length scores = 0%nat) by lia.
    replace (Z.to_nat (Z.min (- k) (Z.of_nat (List.length scores)))) with 0%nat by lia.
    simpl skipn. rewrite <- Permutation_rev. apply argsort_perm_seq.
Qed.

(** X11. When [k] is at least the number of scores, every index is returned
    exactly once: the result is a reordering of [0, ..., n-1]. *)
Theorem top_idx_all (scores : list R) (k : Z)
    (Hk : (Z.of_nat (List.length scores) <= k)%Z) :
  Permutation (top_idx Rltb scores k) (seq 0 (List.length scores)).
Proof. exact (top_idx_all_perm scores k Hk). Qed.

Lemma top_idx_all_witness :
  (Z.of_nat (List.length [3; 1; 2]%R) <= 5)%Z /\
  Permutation (top_idx Rltb [3; 1; 2]%R 5) (seq 0 (List.length [3; 1; 2]%R)).
Proof. split; [simpl; lia|]. apply top_idx_all. simpl. lia. Defined.

Lemma In_firstn_sub {A} (n : nat) (l : list A) (x : A) : In x (firstn n l) -> In x l.
Proof. intros H. rewrite <- (firstn_skipn n l). apply in_or_app. now left. Qed.

(** X12. Top-k correctness: an index left out of the selection never has a
    higher score than a selected one. *)
Theorem top_idx_best (scores : list R) (k : Z) (i j : nat)
    (Hi : In i (top_idx Rltb scores k))
    (Hj : (j < List.length scores)%nat) (Hnot : ~ In j (top_idx Rltb scores k)) :
  (nth j scores 0 <= nth i scores 0)%R.
Proof.
  destruct (sorted_pairs_props R Rltb Rltb_asym scores 0%R) as [_ [Hp _]].
  pose proof (sorted_pairs_strong scores) as Hs.
  unfold top_idx, py_slice_from in Hi, Hnot.
  rewrite argsort_sorted_pairs in Hi, Hnot.
  set (n0 := Z.to_nat _) in Hi, Hnot.
  rewrite <- (firstn_skipn n0 (sorted_pairs Rltb scores)) in Hs.
  rewrite skipn_map in Hi, Hnot. rewrite <- in_rev in Hi, Hnot.
  apply in_map_iff in Hi as [[i' s] [Hi' Hin]]. simpl in Hi'. subst i'.
  assert (HjL : In j (argsort Rltb scores)).
  { apply (Permutation_in _ (Permutation_sym (argsort_perm_seq scores))), in_seq. lia. }
  rewrite argsort_sorted_pairs, <- (firstn_skipn n0 (sorted_pairs Rltb scores)), map_app in HjL.
  apply in_app_or in HjL as [HjL|HjL]; [|contradiction].
  apply in_map_iff in HjL as [[j' t] [Hj' Hjn]]. simpl in Hj'. subst j'.
  pose proof (StronglySorted_app_rel _ _ _ Hs _ _ Hjn Hin) as Hasc.
  apply asc_Rltb_iff in Hasc. simpl in Hasc.
  destruct (Hp i s (In_skipn _ _ _ Hin)) as [_ ->].
  destruct (Hp j t (In_firstn_sub _ _ _ Hjn)) as [_ ->].
  lra.
Qed.

Lemma top_idx_312_one : top_idx Rltb [3; 1; 2]%R 1 = [0%nat].
Proof.
  unfold top_idx, argsort, Rltb. simpl.
  destruct (Rlt_dec 1 3); [|lra]. simpl. destruct (Rlt_dec 2 1); [lra|]. simpl.
  destruct (Rlt_dec 2 3); [|lra]. simpl. reflexivity.
Qed.

Lemma top_idx_best_witness :
  In 0%nat (top_idx Rltb [3; 1; 2]%R 1) /\ (2 < List.length [3; 1; 2]%R)%nat /\
  ~ In 2%nat (top_idx Rltb [3; 1; 2]%R 1) /\
  (nth 2 [3; 1; 2]%R 0 <= nth 0 [3; 1; 2]%R 0)%R.
Proof.
  assert (Hi : In 0%nat (top_idx Rltb [3; 1; 2]%R 1))
    by (rewrite top_idx_312_one; now left).
  assert (Hn : ~ In 2%nat (top_idx Rltb [3; 1; 2]%R 1))
    by (rewrite top_idx_312_one; intros [H|[]]; discriminate).
  split; [exact Hi|]. split; [simpl; lia|]. split; [exact Hn|].
  apply (top_idx_best [3; 1; 2]%R 1 0 2 Hi); [simpl; lia|exact Hn].
Defined.

(** ** The [/ask] handler *)

Lemma retrieve_trace (P : Providers) (query : string) (documents : list string)
    (doc_embeddings : option (list (list R))) (k : Z) (tr : list call) :
  retrieve P query documents doc_embeddings k tr
    = (fst (retrieve P query documents doc_embeddings k []), tr ++ [CallEmbedQuery query]).
Proof. rewrite !retrieve_spec. reflexivity. Qed.

Lemma rag_eq (P : Providers) (question : string) (documents : list string)
    (doc_embeddings : option (list (list R))) (k : Z) (tr : list call) :
  rag P question documents doc_embeddings k tr =
  match fst (retrieve P question documents doc_embeddings k []) with
  | Raise e => (Raise e, tr ++ [CallEmbedQuery question])
  | Ok (td, sc) =>
      (match llm_api P system_prompt (answer_prompt question (String.concat nl td)) with
       | Ok a => Ok (a, td, compute_confidence sc)
       | Raise e => Raise e
       end,
       tr ++ [CallEmbedQuery question;
              CallLLM system_prompt (answer_prompt question (String.concat nl td))])
  end.
Proof.
  unfold rag, bind. rewrite (retrieve_trace P question documents doc_embeddings k tr).
  destruct (fst (retrieve P question documents doc_embeddings k [])) as [[td sc]|e];
    [|reflexivity].
  unfold generate_answer, ret. rewrite <- app_assoc.
  destruct (llm_api P _ _); reflexivity.
Qed.

Lemma compute_confidence_range (xs : list R) : (0 <= compute_confidence xs <= 1)%R.
Proof.
  destruct xs as [|x xs']; [simpl; lra|].
  apply py_round2_range, clamp_range.
Qed.

(** X13. Every [/ask] response echoes the request's question and [k], has a
    confidence in [[0, 1]], and returns as contexts only documents of the
    loaded corpus; a blank question or an unloaded corpus gives no
    context. *)
Theorem ask_question_response (st : AppState) (P : Providers) (payload : QuestionRequest)
    (tr : list call) :
  exists resp,
    fst (ask_question st P payload tr) = Ok resp /\
    resp_question resp = question payload /\ resp_k resp = k payload /\
    (0 <= confidence resp <= 1)%R /\
    (forall c, In c (contexts resp) -> exists docs, DOCUMENTS st = Some docs /\ In c docs) /\
    ((documents_truthy (DOCUMENTS st) = false \/ question_blank (question payload) = true) ->
     contexts resp = []).
Proof.
  unfold ask_question.
  destruct (DOCUMENTS st) as [[|d ds]|] eqn:Hd;
    try (eexists; split; [reflexivity|]; simpl; split; [reflexivity|]; split; [reflexivity|];
         split; [lra|]; split; [intros c []|]; reflexivity).
  destruct (question_blank (question payload)) eqn:Hq.
  { eexists; split; [reflexivity|]; simpl; split; [reflexivity|]; split; [reflexivity|];
      split; [lra|]; split; [intros c []|]; reflexivity. }
  unfold try_except, bind. rewrite rag_eq.
  destruct (fst (retrieve P (question payload) (d :: ds) (DOC_EMBEDDINGS st) (k payload) []))
    as [[td sc]|e] eqn:Hr.
  - destruct (llm_api P _ _) as [a|e].
    + eexists. split; [reflexivity|]. simpl. split; [reflexivity|]. split; [reflexivity|].
      split; [apply compute_confidence_range|]. split.
      * intros c Hc. exists (d :: ds). split; [reflexivity|].
        destruct (retrieve_ok_inv _ _ _ _ _ _ _ _ Hr) as [idx [Hf _]].
        exact (Forall2_nth_error_In _ _ _ Hf c Hc).
      * intros [H|H]; discriminate.
    + eexists. split; [reflexivity|]. simpl. split; [reflexivity|]. split; [reflexivity|].
      split; [lra|]. split; [intros c []|]. reflexivity.
  - eexists. split; [reflexivity|]. simpl. split; [reflexivity|]. split; [reflexivity|].
    split; [lra|]. split; [intros c []|]. reflexivity.
Qed.

(** X14. [/ask] makes at most two external calls, in this order: the query
    embedding, then one chat completion; none at all when the corpus is
    not loaded or the question is blank.  It never asks for document
    embeddings. *)
Theorem ask_question_calls (st : AppState) (P : Providers) (payload : QuestionRequest)
    (tr : list call) :
  ((documents_truthy (DOCUMENTS st) = false \/ question_blank (question payload) = true) ->
   snd (ask_question st P payload tr) = tr) /\
  (snd (ask_question st P payload tr) = tr \/
   snd (ask_question st P payload tr) = tr ++ [CallEmbedQuery (question payload)] \/
   exists ctx, snd (ask_question st P payload tr)
               = tr ++ [CallEmbedQuery (question payload);
                        CallLLM system_prompt (answer_prompt (question payload) ctx)]).
Proof.
  unfold ask_question.
  destruct (DOCUMENTS st) as [[|d ds]|] eqn:Hd; try (split; [reflexivity|now left]).
  destruct (question_blank (question payload)) eqn:Hq; [split; [reflexivity|now left]|].
  split; [intros [H|H]; discriminate|].
  unfold try_except, bind. rewrite rag_eq.
  destruct (fst (retrieve P (question payload) (d :: ds) (DOC_EMBEDDINGS st) (k payload) []))
    as [[td sc]|e].
  - right. right. exists (String.concat nl td).
    destruct (llm_api P _ _); reflexivity.
  - right. left. reflexivity.
Qed.

(** ** [retrieve]: a corpus out of step with its vectors *)

Lemma mapM_getitem_out {A} (l : list A) (idx : list nat) (tr : list call) :
  (exists i, In i idx /\ (List.length l <= i)%nat) ->
  fst (mapM (py_getitem l) idx tr) = Raise (IndexError "list index out of range").
Proof.
  revert tr. induction idx as [|i0 idx IH]; intros tr [i [Hin Hle]]; [destruct Hin|].
  simpl. unfold bind. rewrite py_getitem_eq.
  destruct Hin as [<-|Hin].
  - apply nth_error_None in Hle. rewrite Hle. reflexivity.
  - destruct (nth_error l i0); [|reflexivity].
    rewrite mapM_getitem_trace, (IH []) by (exists i; auto). reflexivity.
Qed.

(** X16. If the corpus vectors outnumber the documents and [k] asks for all of
    them, [retrieve] raises [IndexError]: some selected index has no
    document. *)
Theorem retrieve_more_vectors_than_documents (P : Providers) (query : string)
    (documents : list string) (E : list (list R)) (k : Z) (tr : list call) (qv : list R)
    (Hq : embed_query_api P query = Ok qv)
    (Hc : exists sims, cosine_similarity [qv] E = Ok sims)
    (Hlen : (List.length documents < List.length E)%nat)
    (Hk : (Z.of_nat (List.length E) <= k)%Z) :
  fst (retrieve P query documents (Some E) k tr) = Raise (IndexError "list index out of range").
Proof.
  destruct Hc as [sims Hc].
  rewrite retrieve_spec. simpl fst. rewrite Hq, Hc.
  apply cosine_similarity_query_row in Hc as [-> _]. simpl hd.
  set (scores := map (fun y => dot (normalize_row qv) (normalize_row y)) E).
  assert (Hs : List.length scores = List.length E) by apply length_map.
  rewrite mapM_getitem_out; [reflexivity|].
  exists (List.length documents). split; [|lia].
  apply (Permutation_in _ (Permutation_sym (top_idx_all_perm scores k ltac:(lia)))).
  apply in_seq. lia.
Qed.

Lemma retrieve_more_vectors_than_documents_witness :
  embed_query_api providers_ok "q" = Ok [1%R] /\
  (exists sims, cosine_similarity [[1%R]] [[1%R]; [1%R]] = Ok sims) /\
  (List.length ["a"%string] < List.length [[1%R]; [1%R]])%nat /\
  (Z.of_nat (List.length [[1%R]; [1%R]]) <= 2)%Z /\
  fst (retrieve providers_ok "q" ["a"%string] (Some [[1%R]; [1%R]]) 2 [])
    = Raise (IndexError "list index out of range").
Proof.
  assert (Hc : exists sims, cosine_similarity [[1%R]] [[1%R]; [1%R]] = Ok sims)
    by (eexists; reflexivity).
  split; [reflexivity|]. split; [exact Hc|]. split; [simpl; lia|]. split; [simpl; lia|].
  apply (retrieve_more_vectors_than_documents providers_ok "q" ["a"%string]
           [[1%R]; [1%R]] 2 [] [1%R] eq_refl Hc); simpl; lia.
Defined.

(** X17. If the query vector and the corpus vectors have different dimensions
    (for instance after a change of embedding model), [retrieve] raises
    sklearn's [ValueError] naming both dimensions, after its one
    query-embedding call and before any document is looked up. *)
Theorem retrieve_dimension_mismatch (P : Providers) (query : string) (documents : list string)
    (E : list (list R)) (k : Z) (tr : list call) (qv : list R) (d : nat)
    (Hq : embed_query_api P query = Ok qv) (Hqv : qv <> [])
    (HE : check_array E = Ok d) (Hd : d <> List.length qv) :
  retrieve P query documents (Some E) k tr
    = (Raise (ValueError ("Incompatible dimension for X and Y matrices: X.shape[1] == "
                          ++ string_of_nat (List.length qv) ++ " while Y.shape[1] == "
                          ++ string_of_nat d)),
       tr ++ [CallEmbedQuery query]).
Proof.
  rewrite retrieve_spec, Hq. unfold cosine_similarity. rewrite HE.
  assert (Hqa : check_array [qv] = Ok (List.length qv)).
  { destruct qv as [|x qv']; [contradiction|]. unfold check_array. simpl.
    rewrite Nat.eqb_refl. reflexivity. }
  rewrite Hqa. replace (Nat.eqb (List.length qv) d) with false
    by (symmetry; apply Nat.eqb_neq; lia).
  reflexivity.
Qed.

Lemma retrieve_dimension_mismatch_witness :
  embed_query_api providers_ok "q" = Ok [1%R] /\ [1%R] <> [] /\
  check_array [[1%R; 0%R]] = Ok 2%nat /\ 2%nat <> List.length [1%R] /\
  retrieve providers_ok "q" ["a"%string] (Some [[1%R; 0%R]]) 1 []
    = (Raise (ValueError
         "Incompatible dimension for X and Y matrices: X.shape[1] == 1 while Y.shape[1] == 2"),
       [CallEmbedQuery "q"]).
Proof.
  split; [reflexivity|]. split; [discriminate|]. split; [reflexivity|].
  split; [simpl; lia|].
  exact (retrieve_dimension_mismatch providers_ok "q" ["a"%string] [[1%R; 0%R]] 1 [] [1%R] 2
           eq_refl ltac:(discriminate) eq_refl ltac:(simpl; lia)).
Defined.

(** ** Valid [argsort] orders *)

Lemma insert_by_perm {K} (ltb : K -> K -> bool) (p : nat * K) (acc : list (nat * K)) :
  Permutation (insert_by ltb p acc) (p :: acc).
Proof.
  induction acc as [|q acc IH]; simpl; [reflexivity|].
  destruct (ltb (snd p) (snd q)); [reflexivity|].
  eapply perm_trans; [apply perm_skip, IH|apply perm_swap].
Qed.

Lemma fold_insert_perm {K} (ltb : K -> K -> bool) (l acc : list (nat * K)) :
  Permutation (fold_left (fun acc p => insert_by ltb p acc) l acc) (l ++ acc).
Proof.
  revert acc. induction l as [|x l IH]; intros acc; simpl; [reflexivity|].
  eapply perm_trans; [apply IH|].
  eapply perm_trans; [apply Permutation_app_head, insert_by_perm|].
  apply Permutation_sym, Permutation_middle.
Qed.

Lemma map_fst_combine_seq {K} (a : list K) (start : nat) :
  map fst (combine (seq start (List.length a)) a) = seq start (List.length a).
Proof.
  revert start. induction a as [|x a IH]; intros start; simpl; [reflexivity|].
  now rewrite IH.
Qed.

Lemma argsort_perm {K} (ltb : K -> K -> bool) (a : list K) :
  Permutation (argsort ltb a) (seq 0 (List.length a)).
Proof.
  unfold argsort. rewrite <- (map_fst_combine_seq a 0) at 2.
  apply Permutation_map.
  eapply perm_trans; [apply fold_insert_perm|]. rewrite app_nil_r. reflexivity.
Qed.

Lemma Sorted_map_in {A B} (R1 : A -> A -> Prop) (R2 : B -> B -> Prop) (g : A -> B)
    (Q : A -> Prop) (l : list A) :
  Forall Q l -> (forall x y, Q x -> Q y -> R1 x y -> R2 (g x) (g y)) ->
  Sorted R1 l -> Sorted R2 (map g l).
Proof.
  intros HQ Himp Hs. induction Hs as [|x l Hs IH Hhd]; simpl; constructor.
  - exact (IH (Forall_inv_tail HQ)).
  - destruct l as [|y l']; simpl; constructor.
    inversion Hhd; subst.
    apply Himp; [exact (Forall_inv HQ)|exact (Forall_inv (Forall_inv_tail HQ))|assumption].
Qed.

Lemma argsort_keys_sorted {K} (ltb : K -> K -> bool)
    (ltb_asym : forall x y, ltb x y = true -> ltb y x = false) (a : list K) (d : K) :
  Sorted (fun i j => ltb (nth j a d) (nth i a d) = false) (argsort ltb a).
Proof.
  rewrite argsort_sorted_pairs.
  destruct (sorted_pairs_props K ltb ltb_asym a d) as [Hs [Hp _]].
  apply (Sorted_map_in (asc ltb) _ fst (fun p => nth (fst p) a d = snd p)).
  - apply Forall_forall. intros [i s] Hin. exact (proj2 (Hp i s Hin)).
  - intros [i s] [j t] Hi Hj [H _]. simpl in *. rewrite Hi, Hj. exact H.
  - exact Hs.
Qed.

Lemma argsort_valid : valid_argsort (argsort Rltb).
Proof.
  intros a. split; [apply argsort_perm|].
  eapply Sorted_weaken; [|exact (argsort_keys_sorted Rltb Rltb_asym a 0%R)].
  intros i j H. now apply Rltb_false in H.
Qed.

Lemma Rltb_flip_asym (x y : R) :
  (fun x y => Rltb y x) x y = true -> (fun x y => Rltb y x) y x = false.
Proof. simpl. apply Rltb_asym. Qed.

Lemma argsort_ties_reversed_valid : valid_argsort argsort_ties_reversed.
Proof.
  intros a. unfold argsort_ties_reversed. split.
  - eapply perm_trans; [apply Permutation_sym, Permutation_rev|apply argsort_perm].
  - pose proof (argsort_keys_sorted (fun x y => Rltb y x) Rltb_flip_asym a 0%R) as H.
    apply Sorted_rev_flip in H. eapply Sorted_weaken; [|exact H].
    intros i j Hij. simpl in Hij. now apply Rltb_false in Hij.
Qed.

(** ** C3: order of the retrieved documents *)

(** C3 (as the code behaves).  Whatever order numpy's [argsort] gives to
    equal keys, a successful retrieval returns documents [documents[i]] for
    a list of indices [i] together with the cosine similarities of those
    indices (against [doc_embeddings], or against the query itself when it
    is [None]), and the scores are in non-increasing order. *)
Theorem retrieve_sorted (np_argsort : list R -> list nat) (Hvalid : valid_argsort np_argsort)
    (P : Providers) (query : string) (documents : list string)
    (doc_embeddings : option (list (list R))) (k : Z) (tr : list call) :
  match fst (retrieve_with np_argsort P query documents doc_embeddings k tr) with
  | Ok (top_docs, top_scores) =>
      exists (idx : list nat) (qv : list R) (E : list (list R)),
        embed_query_api P query = Ok qv /\
        (doc_embeddings = Some E \/ (doc_embeddings = None /\ E = [qv])) /\
        Forall2 (fun i d => nth_error documents i = Some d) idx top_docs /\
        top_scores
          = map (fun i => nth i (map (fun y => dot (normalize_row qv) (normalize_row y)) E) 0%R)
                idx /\
        Sorted (fun s t => (t <= s)%R) top_scores
  | Raise _ => True
  end.
Proof.
  rewrite retrieve_with_spec. simpl fst.
  destruct (embed_query_api P query) as [qv|e]; [|exact I].
  assert (HE : exists E, (doc_embeddings = Some E \/ (doc_embeddings = None /\ E = [qv])) /\
                 match doc_embeddings with
                 | Some E => cosine_similarity [qv] E
                 | None => cosine_similarity [qv] [qv]
                 end = cosine_similarity [qv] E).
  { destruct doc_embeddings as [E|]; [exists E|exists [qv]]; auto. }
  destruct HE as [E [HdE ->]].
  destruct (cosine_similarity [qv] E) as [sims|e] eqn:Hc; [|exact I].
  apply cosine_similarity_query_row in Hc as [-> _]. simpl hd.
  set (scores := map (fun y => dot (normalize_row qv) (normalize_row y)) E).
  set (top := rev (py_slice_from (- k) (np_argsort scores))).
  destruct (fst (mapM (py_getitem documents) top [])) as [ys|e] eqn:Hm; [|exact I].
  exists top, qv, E. split; [reflexivity|]. split; [exact HdE|].
  split; [exact (mapM_getitem_ok _ _ _ _ Hm)|]. split; [reflexivity|].
  destruct (Hvalid scores) as [_ Hs].
  apply (Sorted_map_in (fun i j => (nth j scores 0 <= nth i scores 0)%R) _
           (fun i => nth i scores 0%R) (fun _ => True)).
  - apply Forall_forall. auto.
  - intros i j _ _ H. exact H.
  - unfold top. apply (Sorted_rev_flip (fun i j => (nth i scores 0 <= nth j scores 0)%R)).
    unfold py_slice_from. apply Sorted_skipn. exact Hs.
Qed.

Lemma argsort_tie (s : R) : argsort Rltb [s; s] = [0; 1]%nat.
Proof. unfold argsort. simpl. rewrite Rltb_irrefl. reflexivity. Qed.

Lemma argsort_ties_reversed_tie (s : R) : argsort_ties_reversed [s; s] = [1; 0]%nat.
Proof. unfold argsort_ties_reversed, argsort. simpl. rewrite Rltb_irrefl. reflexivity. Qed.

Lemma retrieve_sorted_witness :
  valid_argsort (argsort Rltb) /\
  match fst (retrieve_with (argsort Rltb) providers_ok "q" ["a"; "b"]%string
               (Some [[1%R]; [1%R]]) 2 []) with
  | Ok (top_docs, top_scores) =>
      exists (idx : list nat) (qv : list R) (E : list (list R)),
        embed_query_api providers_ok "q" = Ok qv /\
        (Some [[1%R]; [1%R]] = Some E \/ (Some [[1%R]; [1%R]] = None /\ E = [qv])) /\
        Forall2 (fun i d => nth_error ["a"; "b"]%string i = Some d) idx top_docs /\
        top_scores
          = map (fun i => nth i (map (fun y => dot (normalize_row qv) (normalize_row y)) E) 0%R)
                idx /\
        Sorted (fun s t => (t <= s)%R) top_scores
  | Raise _ => True
  end.
Proof.
  split; [exact argsort_valid|].
  exact (retrieve_sorted (argsort Rltb) argsort_valid providers_ok "q" ["a"; "b"]%string
           (Some [[1%R]; [1%R]]) 2 []).
Defined.

(** C3, refuted as stated: two corpus vectors equal to each other get the
    same score.  With the insertion-sort order of equal keys (numpy's
    portable sort on short arrays) the document at index 1 is returned
    first; with the opposite order, also a valid [argsort], the document
    at index 0 is.  No order among equal scores is fixed by the code, and
    the smaller index does not always come first. *)
Lemma retrieve_tie_order_not_fixed :
  valid_argsort (argsort Rltb) /\ valid_argsort argsort_ties_reversed /\
  match fst (retrieve_with (argsort Rltb) providers_ok "q" ["a"; "b"]%string
               (Some [[1%R]; [1%R]]) 2 []) with
  | Ok (top_docs, [s0; s1]) => top_docs = ["b"; "a"]%string /\ s0 = s1
  | _ => False
  end /\
  match fst (retrieve_with argsort_ties_reversed providers_ok "q" ["a"; "b"]%string
               (Some [[1%R]; [1%R]]) 2 []) with
  | Ok (top_docs, [s0; s1]) => top_docs = ["a"; "b"]%string /\ s0 = s1
  | _ => False
  end.
Proof.
  split; [exact argsort_valid|]. split; [exact argsort_ties_reversed_valid|]. split.
  - rewrite retrieve_with_spec. simpl. rewrite argsort_tie. simpl. split; reflexivity.
  - rewrite retrieve_with_spec. simpl. rewrite argsort_ties_reversed_tie. simpl.
    split; reflexivity.
Qed.
